(** * bsky-bot-with-image-upload: a shallow embedding of [src/main.ts]

    The program is one linear job: download a camera snapshot, ask a
    vision model for a caption, truncate the caption, log in to the
    posting service, upload the image bytes and create a post.

    The embedding follows the TypeScript source function by function.
    JavaScript strings are sequences of UTF-16 code units, image data
    are byte lists, [process.env] and the file system are finite maps,
    and every effect of the program (HTTP, file system, inference call,
    posting service, console, clock, [process.exit], an exception that
    nothing catches) is an operation of a small state-and-failure monad
    that records a trace. *)

From Stdlib Require Import ZArith NArith List Ascii String Lia.
From Stdlib.Strings Require Import Byte.
From stdpp Require Import base option list gmap strings.

Set Default Proof Using "Type".
Local Open Scope N_scope.

(** ** JavaScript strings *)

Module Js.

(** A JS string is a sequence of 16-bit code units; [.length],
    [.slice], [.split] and [.charCodeAt] all count code units. *)
Abbreviation char16 := N (only parsing).
Abbreviation jsstring := (list N) (only parsing).

(** An ASCII literal of the source, as code units. *)
Definition js (s : string) : jsstring :=
  map N_of_ascii (list_ascii_of_string s).

(** [!s] is false exactly for a defined, non-empty string. *)
Definition truthy (o : option jsstring) : bool :=
  match o with
  | Some (_ :: _) => true
  | _ => false
  end.

(** [a || b] on a string operand. *)
Definition or_else (a b : jsstring) : jsstring :=
  match a with
  | [] => b
  | _ :: _ => a
  end.

(** [s.slice(0, n)] for [n >= 0]. *)
Definition slice0 (n : nat) (s : jsstring) : jsstring := take n s.

(** [s.split(sep)] for a one-unit separator: the pieces between
    occurrences of [sep]; the empty string gives one empty piece. *)
Fixpoint split (sep : char16) (s : jsstring) : list jsstring :=
  match s with
  | [] => [[]]
  | c :: rest =>
      if N.eqb c sep then [] :: split sep rest
      else match split sep rest with
           | [] => [[c]]
           | p :: ps => (c :: p) :: ps
           end
  end.

(** [String(n)] for a non-negative integer: its decimal digits. *)
Fixpoint digits (fuel : nat) (n : N) (acc : jsstring) : jsstring :=
  let acc' := (48 + n mod 10) :: acc in
  match fuel with
  | O => acc'
  | S fuel' => if n / 10 =? 0 then acc' else digits fuel' (n / 10) acc'
  end.

Definition of_N (n : N) : jsstring :=
  digits (N.to_nat (N.log2 n)) n [].

(** [suffix] is the tail of [s]: [s.endsWith(suffix)]. *)
Definition ends_with (suffix s : jsstring) : Prop :=
  drop (length s - length suffix)%nat s = suffix.

End Js.
Import Js.
Arguments js _%_string.

(** ** The description cap of [getPostText] (main.ts, lines 136-140) *)

Definition maxGraphemes : nat := 300.

Definition truncate (imageDescription : jsstring) : jsstring :=
  if Nat.ltb maxGraphemes (length imageDescription)
  then slice0 maxGraphemes imageDescription ++ js "..."
  else imageDescription.

(** ** Bytes and base64: [Buffer.toString('base64')] and [atob] *)

Module Base64.

(** The value of a byte and the [ToUint8] conversion of a typed-array
    store. *)
Definition byte_val (b : byte) : N := Byte.to_N b.

Definition to_uint8 (n : N) : byte :=
  match Byte.of_N (n mod 256) with
  | Some b => b
  | None => x00
  end.

(** The standard alphabet: A-Z, a-z, 0-9, [+], [/]. *)
Definition b64char (v : N) : char16 :=
  if v <? 26 then 65 + v
  else if v <? 52 then 97 + (v - 26)
  else if v <? 62 then 48 + (v - 52)
  else if v =? 62 then 43
  else 47.

Definition pad : char16 := 61.

(** [buf.toString('base64')]: three bytes give four characters, a
    final group of one or two bytes is padded with [=]. *)
Fixpoint encode (bs : list byte) : jsstring :=
  match bs with
  | [] => []
  | [a] =>
      let a := byte_val a in
      [b64char (a / 4); b64char (a mod 4 * 16); pad; pad]
  | [a; b] =>
      let a := byte_val a in
      let b := byte_val b in
      [b64char (a / 4); b64char (a mod 4 * 16 + b / 16);
       b64char (b mod 16 * 4); pad]
  | a :: b :: c :: rest =>
      let a := byte_val a in
      let b := byte_val b in
      let c := byte_val c in
      b64char (a / 4) :: b64char (a mod 4 * 16 + b / 16)
        :: b64char (b mod 16 * 4 + c / 64) :: b64char (c mod 64)
        :: encode rest
  end.

(** The inverse of the alphabet. *)
Definition sextet (c : char16) : option N :=
  if (65 <=? c) && (c <=? 90) then Some (c - 65)
  else if (97 <=? c) && (c <=? 122) then Some (c - 97 + 26)
  else if (48 <=? c) && (c <=? 57) then Some (c - 48 + 52)
  else if c =? 43 then Some 62
  else if c =? 47 then Some 63
  else None.

(** ASCII whitespace: TAB, LF, FF, CR, SPACE. *)
Definition is_ws (c : char16) : bool :=
  (c =? 9) || (c =? 10) || (c =? 12) || (c =? 13) || (c =? 32).

(** One or two trailing [=] are dropped. *)
Definition strip_padding (data : jsstring) : jsstring :=
  match rev data with
  | c1 :: r1 =>
      if c1 =? pad then
        match r1 with
        | c2 :: r2 => if c2 =? pad then rev r2 else rev r1
        | [] => rev r1
        end
      else data
  | [] => data
  end.

Fixpoint sextets (data : jsstring) : option (list N) :=
  match data with
  | [] => Some []
  | c :: rest =>
      match sextet c, sextets rest with
      | Some v, Some vs => Some (v :: vs)
      | _, _ => None
      end
  end.

(** 24 bits give three code units; 18 left-over bits give two and 12
    give one, the low bits being discarded. *)
Fixpoint decode (vs : list N) : jsstring :=
  match vs with
  | a :: b :: c :: d :: rest =>
      (a * 4 + b / 16) :: (b mod 16 * 16 + c / 4) :: (c mod 4 * 64 + d)
        :: decode rest
  | [a; b; c] => [a * 4 + b / 16; b mod 16 * 16 + c / 4]
  | [a; b] => [a * 4 + b / 16]
  | _ => []
  end.

(** [atob(data)], the forgiving base64 decoder of the HTML standard;
    [None] stands for the [InvalidCharacterError] it throws. *)
Definition atob (data : jsstring) : option jsstring :=
  let data := filter (fun c => is_ws c = false) data in
  let data :=
    if Nat.eqb (length data mod 4) 0 then strip_padding data else data in
  if Nat.eqb (length data mod 4) 1 then None
  else decode <$> sextets data.

Definition bytes_of (s : string) : list byte :=
  map byte_of_ascii (list_ascii_of_string s).

(** The sextets that [encode] writes, without the alphabet, and the
    number of [=] it appends. *)
Fixpoint groups (bs : list byte) : list N :=
  match bs with
  | [] => []
  | [a] => let a := byte_val a in [a / 4; a mod 4 * 16]
  | [a; b] =>
      let a := byte_val a in
      let b := byte_val b in
      [a / 4; a mod 4 * 16 + b / 16; b mod 16 * 4]
  | a :: b :: c :: rest =>
      let a := byte_val a in
      let b := byte_val b in
      let c := byte_val c in
      a / 4 :: (a mod 4 * 16 + b / 16) :: (b mod 16 * 4 + c / 64) :: c mod 64
        :: groups rest
  end.

Fixpoint padding (bs : list byte) : nat :=
  match bs with
  | [] => 0
  | [_] => 2
  | [_; _] => 1
  | _ :: _ :: _ :: rest => padding rest
  end.

End Base64.

(** ** [Date.prototype.toISOString] *)

Module Date.
Local Open Scope Z_scope.

Definition msPerDay : Z := 86400000.

(** Year, month and day of a day number counted from 1970-01-01 in
    the proleptic Gregorian calendar. *)
Definition civil_from_days (days : Z) : Z * Z * Z :=
  let z := days + 719468 in
  let era := z / 146097 in
  let doe := z mod 146097 in
  let yoe := (doe - doe / 1460 + doe / 36524 - doe / 146096) / 365 in
  let doy := doe - (365 * yoe + yoe / 4 - yoe / 100) in
  let mp := (5 * doy + 2) / 153 in
  let d := doy - (153 * mp + 2) / 5 + 1 in
  let m := if mp <? 10 then mp + 3 else mp - 9 in
  let y := yoe + era * 400 + (if m <=? 2 then 1 else 0) in
  (y, m, d).

Definition digit (n : Z) : N := 48 + Z.to_N (n mod 10).

(** [n] in exactly [width] decimal digits. *)
Fixpoint padded (width : nat) (n : Z) : jsstring :=
  match width with
  | O => []
  | S width' => padded width' (n / 10) ++ [digit n]
  end.

(** [YYYY-MM-DDTHH:mm:ss.sssZ], with a signed six-digit year outside
    0..9999. *)
Definition toISOString (t : Z) : jsstring :=
  let '(y, m, d) := civil_from_days (t / msPerDay) in
  let ms := t mod msPerDay in
  let year :=
    if (0 <=? y) && (y <=? 9999) then padded 4 y
    else (if y <? 0 then js "-" else js "+") ++ padded 6 (Z.abs y) in
  year ++ js "-" ++ padded 2 m ++ js "-" ++ padded 2 d ++ js "T"
    ++ padded 2 (ms / 3600000) ++ js ":" ++ padded 2 (ms / 60000 mod 60)
    ++ js ":" ++ padded 2 (ms / 1000 mod 60) ++ js "."
    ++ padded 3 (ms mod 1000) ++ js "Z".

End Date.

(** ** Values exchanged with the outside world *)

(** What a [throw] carries. *)
Inductive JsError : Type :=
  | Error (message : jsstring)
  | TypeError (message : jsstring)
  | DOMException (name : jsstring).

(** The part of an [IncomingMessage] the program looks at. *)
Record IncomingMessage : Type := {
  statusCode : N;
  headers_location : option jsstring;
  payload : list byte
}.

(** [https.get]: the callback runs with a response, or the request
    emits ['error'], or the call itself throws before any request is
    made (the text is not a URL, or its protocol is not [https:]). *)
Inductive GetResult : Type :=
  | Responded (response : IncomingMessage)
  | RequestError (err : JsError)
  | Refused (err : JsError).

(** How the write stream on a path ends: ['finish'], or ['error']
    either on opening or after [written] bytes. *)
Inductive StreamResult : Type :=
  | Finish
  | OpenError (err : JsError)
  | WriteError (written : nat) (err : JsError).

(** The [error] property of the inference response, as the guard of
    [getImageDescription] inspects it. *)
Inductive ErrorProperty : Type :=
  | NoErrorProperty
  | ErrorPrimitive
  | ErrorNull
  | ErrorObject (message : option jsstring).

Record Choice : Type := { message_content : option jsstring }.

(** The body of the inference response: a value that is not an object
    (on which ['choices' in body] throws), or an object with or without
    a [choices] member and with whatever [error] member the service
    sent. *)
Inductive Body : Type :=
  | NotAnObject (shown : jsstring)
  | BodyObject (choices : option (list Choice)) (body_error : ErrorProperty).

(** The response of the inference client.  [error] is the property of
    the response itself that line 71 tests; the client
    ([@azure-rest/ai-inference]) builds responses with [request],
    [headers], [status] and [body] only, so for its responses [error] is
    [NoErrorProperty] and the error of the service is in the body. *)
Record ChatResponse : Type := {
  status : jsstring;
  error : ErrorProperty;
  body : Body
}.

(** [response.body.choices], when the body is an object that has it. *)
Definition body_choices (response : ChatResponse) : option (list Choice) :=
  match body response with
  | BodyObject choices _ => choices
  | NotAnObject _ => None
  end.

Record ChatRequest : Type := {
  system_content : jsstring;
  user_text : jsstring;
  image_url : jsstring;
  image_detail : jsstring;
  model : jsstring
}.

Inductive BlobRef : Type := Blob (cid : jsstring).

Record AspectRatio : Type := { width : N; height : N }.

Record EmbedImage : Type := {
  alt : jsstring;
  image : BlobRef;
  aspectRatio : AspectRatio
}.

Record Embed : Type := { embed_type : jsstring; images : list EmbedImage }.

Record PostRecord : Type := {
  text : jsstring;
  embed : Embed;
  createdAt : jsstring
}.

(** Everything the job does that is visible from outside, in order. *)
Inductive Event : Type :=
  | Mkdir (path : jsstring)
  | HttpsGet (url : jsstring)
  | CreateWriteStream (path : jsstring)
  | Unlink (path : jsstring)
  | ReadFile (path : jsstring)
  | ChatCompletions (endpoint credential : jsstring) (request : ChatRequest)
  | Login (identifier password : jsstring)
  | UploadBlob (data : list byte) (encoding : jsstring)
  | CreatePost (record : PostRecord)
  | ConsoleLog (line : jsstring)
  | ConsoleError (line : jsstring)
  | ConsoleErrorValue (line : jsstring) (value : JsError)
  | ProcessExit (code : Z)
  | UncaughtException (value : JsError).

(** The environment of one run: the process environment and the
    behaviour of every external service. *)
Record World : Type := {
  process_env : gmap (list N) (list N);
  https_get : jsstring -> GetResult;
  write_stream : jsstring -> StreamResult;
  unlink_fails : jsstring -> bool;
  read_fails : nat -> bool;
  chat_completions : ChatRequest -> JsError + ChatResponse;
  agent_login : jsstring -> jsstring -> option JsError;
  agent_uploadBlob : list byte -> jsstring -> JsError + BlobRef;
  agent_post : PostRecord -> option JsError;
  clock : nat -> Z
}.

(** The mutable state: the file system, the number of reads and clock
    readings so far, and the trace. *)
Record State : Type := {
  dirs : gset (list N);
  files : gmap (list N) (list byte);
  reads : nat;
  ticks : nat;
  trace : list Event
}.

(** ** The monad of the embedding *)

(** A computation returns, throws, or ends the process. *)
Inductive Outcome (A : Type) : Type :=
  | Returned (a : A)
  | Thrown (e : JsError)
  | Exited (code : Z).
Arguments Returned {A} a.
Arguments Thrown {A} e.
Arguments Exited {A} code.

Definition M (A : Type) : Type := State -> Outcome A * State.

Definition ret {A} (a : A) : M A := fun s => (Returned a, s).

Definition bind {A B} (m : M A) (k : A -> M B) : M B :=
  fun s =>
    match m s with
    | (Returned a, s') => k a s'
    | (Thrown e, s') => (Thrown e, s')
    | (Exited c, s') => (Exited c, s')
    end.

Definition throw {A} (e : JsError) : M A := fun s => (Thrown e, s).

(** [try { m } catch (e) { handler e }]: only a throw is caught. *)
Definition try_catch {A} (m : M A) (handler : JsError -> M A) : M A :=
  fun s =>
    match m s with
    | (Thrown e, s') => handler e s'
    | r => r
    end.

Declare Scope js_scope.
Delimit Scope js_scope with js.
Notation "x <- m ;; k" := (bind m (fun x => k))
  (at level 100, m at next level, right associativity) : js_scope.
Notation "m ;; k" := (bind m (fun _ => k))
  (at level 100, right associativity) : js_scope.
Local Open Scope js_scope.

(** State updates: one more event, a change of the files, one more
    directory, one more read, one more clock reading. *)
Definition record_event (e : Event) (s : State) : State :=
  {| dirs := dirs s; files := files s; reads := reads s;
     ticks := ticks s; trace := trace s ++ [e] |}.

Definition update_files (f : gmap (list N) (list byte) -> gmap (list N) (list byte))
    (s : State) : State :=
  {| dirs := dirs s; files := f (files s); reads := reads s;
     ticks := ticks s; trace := trace s |}.

Definition add_dir (path : jsstring) (s : State) : State :=
  {| dirs := {[path]} ∪ dirs s; files := files s; reads := reads s;
     ticks := ticks s; trace := trace s |}.

Definition count_read (s : State) : State :=
  {| dirs := dirs s; files := files s; reads := S (reads s);
     ticks := ticks s; trace := trace s |}.

Definition count_tick (s : State) : State :=
  {| dirs := dirs s; files := files s; reads := reads s;
     ticks := S (ticks s); trace := trace s |}.

Definition emit (e : Event) : M unit :=
  fun s => (Returned tt, record_event e s).

Definition set_files (f : gmap (list N) (list byte) -> gmap (list N) (list byte)) : M unit :=
  fun s => (Returned tt, update_files f s).

Definition console_log (line : jsstring) : M unit := emit (ConsoleLog line).
Definition console_error (line : jsstring) : M unit := emit (ConsoleError line).

(** [console.error(line, value)]: the line and the thrown value,
    printed as the console prints it (for an error, with its stack). *)
Definition console_error_value (line : jsstring) (value : JsError) : M unit :=
  emit (ConsoleErrorValue line value).

(** [process.exit(code)] never returns and no [catch] sees it. *)
Definition process_exit {A} (code : Z) : M A :=
  fun s => (Exited code, record_event (ProcessExit code) s).

(** A throw inside an event callback reaches no [catch] and no promise:
    the uncaught exception ends the process with status 1. *)
Definition uncaught {A} (value : JsError) : M A :=
  fun s => (Exited 1%Z, record_event (UncaughtException value) s).

(** ** The program *)

Section Program.

Variable w : World.

(** Primitive operations on the world. *)

Definition existsSync (path : jsstring) : M bool :=
  fun s => (Returned (bool_decide (path ∈ dirs s) || bool_decide (is_Some (files s !! path))), s).

(** [fs.mkdirSync(path)], reached only when [existsSync] was false;
    the working directory is taken to be writable. *)
Definition mkdirSync (path : jsstring) : M unit :=
  fun s => (Returned tt, add_dir path (record_event (Mkdir path) s)).

(** [fs.readFileSync(path)]: throws when the read fails. *)
Definition readFileSync (path : jsstring) : M (list byte) :=
  fun s =>
    let s' := count_read (record_event (ReadFile path) s) in
    match files s !! path with
    | Some content =>
        if read_fails w (reads s) then (Thrown (Error (js "EIO: i/o error, read")), s')
        else (Returned content, s')
    | None => (Thrown (Error (js "ENOENT: no such file or directory, open")), s')
    end.

(** [fs.unlink(path, callback)]: the removal may fail, and the
    callback runs either way (line 44 ignores its argument). *)
Definition unlink {A} (path : jsstring) (callback : M A) : M A :=
  emit (Unlink path);;
  (if unlink_fails w path then ret tt else set_files (delete path));;
  callback.

(** [new Date().toISOString()]. *)
Definition now_iso : M jsstring :=
  fun s => (Returned (Date.toISOString (clock w (ticks s))), count_tick s).

(** Module-level constants (main.ts, lines 12-19). *)
Definition token : option jsstring := process_env w !! js "KEY_GITHUB_TOKEN".
Definition endpoint : jsstring := js "https://models.inference.ai.azure.com".
Definition modelName : jsstring := js "gpt-4o".
Definition todayFolder : jsstring := js "today".
Definition imageFileName : jsstring := js "todays_image.jpg".
Definition imageUrl : jsstring :=
  js "https://webkamera.atlas.vegvesen.no/public/kamera?id=0229009_1".
Definition bskyHandle : option jsstring := process_env w !! js "BSKY_HANDLE".
Definition bskyPassword : option jsstring := process_env w !! js "BSKY_PASSWORD".

(** [path.join(a, b)] for two plain segments. *)
Definition path_join (a b : jsstring) : jsstring := a ++ js "/" ++ b.

(** main.ts, lines 37-46.  The stream is piped into the file; on
    ['finish'] the file is closed and [resolve] runs, on ['error'] the
    file is unlinked and then [reject] runs. *)
Definition saveImageToFile {A} (response : IncomingMessage) (dest : jsstring)
    (resolve : M A) (reject : JsError -> M A) : M A :=
  emit (CreateWriteStream dest);;
  match write_stream w dest with
  | Finish =>
      set_files (<[dest := payload response]>);;
      resolve
  | WriteError written err =>
      set_files (<[dest := take written (payload response)]>);;
      unlink dest (reject err)
  | OpenError err =>
      unlink dest (reject err)
  end.

(** main.ts, lines 21-35.  [resolve] and [reject] settle the promise
    that the caller awaits.  A throw of the first [https.get] happens
    in the executor of the promise and rejects it; a throw of the second
    happens in the response callback of the first and is uncaught. *)
Definition downloadImage (url dest : jsstring) : M unit :=
  let resolve : M unit := ret tt in
  let reject : JsError -> M unit := throw in
  emit (HttpsGet url);;
  match https_get w url with
  | Refused err => reject err
  | RequestError err => reject err
  | Responded response =>
      if (statusCode response =? 302) && truthy (headers_location response) then
        let location := default [] (headers_location response) in
        emit (HttpsGet location);;
        match https_get w location with
        | Refused err => uncaught err
        | RequestError err => reject err
        | Responded redirectedResponse =>
            saveImageToFile redirectedResponse dest resolve reject
        end
      else if statusCode response =? 200 then
        saveImageToFile response dest resolve reject
      else
        reject (Error (js "Failed to download image. Status Code: "
                         ++ of_N (statusCode response)))
  end.

(** The template strings of lines 89 and 91. *)
Definition dataUrl (imageFormat : jsstring) (imageBuffer : list byte) : jsstring :=
  js "data:image/" ++ imageFormat ++ js ";base64," ++ Base64.encode imageBuffer.

Definition could_not_read (imageFile : jsstring) : jsstring :=
  js "Could not read '" ++ imageFile ++ js "'.".

(** main.ts, lines 85-94.  A failed read is not rethrown: the process
    exits with status 1. *)
Definition getImageDataUrl (imageFile imageFormat : jsstring) : M jsstring :=
  try_catch
    (imageBuffer <- readFileSync imageFile;;
     ret (dataUrl imageFormat imageBuffer))
    (fun _ =>
       console_error (could_not_read imageFile);;
       process_exit 1%Z).

(** The guard of line 71: a status other than ["200"] together with
    an [error] property that is a non-null object with a [message]. *)
Definition error_message (response : ChatResponse) : option jsstring :=
  if bool_decide (status response = js "200") then None
  else match error response with
       | ErrorObject (Some message) => Some message
       | _ => None
       end.

(** The request body of lines 56-69. *)
Definition chat_request (imageDataUrl : jsstring) : ChatRequest :=
  {| system_content := js "You are a helpful assistant that describes images in detail.";
     user_text := js "Describe this image in less than 200 characters:";
     image_url := imageDataUrl;
     image_detail := js "low";
     model := modelName |}.

(** Lines 71-82: what becomes of the response. *)
Definition read_response (response : ChatResponse) : M jsstring :=
  match error_message response with
  | Some message => throw (Error message)
  | None =>
      match body response with
      | NotAnObject shown =>
          throw (TypeError (js "Cannot use 'in' operator to search for 'choices' in "
                              ++ shown))
      | BodyObject (Some choices) _ =>
          match choices with
          | [] => throw (TypeError (js "Cannot read properties of undefined (reading 'message')"))
          | choice :: _ =>
              if truthy (message_content choice)
              then ret (default [] (message_content choice))
              else ret (js "No description available.")
          end
      | BodyObject None _ => throw (Error (js "Unexpected response format"))
      end
  end.

(** main.ts, lines 48-83. *)
Definition getImageDescription : M jsstring :=
  if negb (truthy token) then throw (Error (js "Azure API token is not defined"))
  else
    let credential := default [] token in
    imageDataUrl <- getImageDataUrl (path_join todayFolder imageFileName) (js "jpg");;
    emit (ChatCompletions endpoint credential (chat_request imageDataUrl));;
    match chat_completions w (chat_request imageDataUrl) with
    | inl err => throw err
    | inr response => read_response response
    end.

(** [s.charCodeAt(i)] for an index within the string. *)
Definition charCodeAt (s : jsstring) (i : nat) : N := nth i s 0.

(** The loop of lines 100-102: one store per index. *)
Definition fill (byteString : jsstring) (uint8Array : list byte) : list byte :=
  foldl (fun arr i => <[i := Base64.to_uint8 (charCodeAt byteString i)]> arr)
        uint8Array (seq 0 (length byteString)).

(** main.ts, lines 96-104.  [split(',')[1]] is [undefined] when the
    argument has no comma, and [atob] then decodes the text
    ["undefined"]. *)
Definition convertDataURIToUint8Array (dataURI : jsstring) : M (list byte) :=
  let part := default (js "undefined") (split 44 dataURI !! 1%nat) in
  match Base64.atob part with
  | None => throw (DOMException (js "InvalidCharacterError"))
  | Some byteString =>
      let arrayBuffer := repeat x00 (length byteString) in
      ret (fill byteString arrayBuffer)
  end.

(** The [AtpAgent] calls. *)
Definition agent_login_call (identifier password : jsstring) : M unit :=
  emit (Login identifier password);;
  match agent_login w identifier password with
  | Some err => throw err
  | None => ret tt
  end.

Definition agent_uploadBlob_call (data : list byte) (encoding : jsstring) : M BlobRef :=
  emit (UploadBlob data encoding);;
  match agent_uploadBlob w data encoding with
  | inl err => throw err
  | inr blob => ret blob
  end.

Definition agent_post_call (record : PostRecord) : M unit :=
  emit (CreatePost record);;
  match agent_post w record with
  | Some err => throw err
  | None => ret tt
  end.

(** A [try] block of [getPostText] either lets the function go on
    with a value or makes it [return]. *)
Inductive Step (A : Type) : Type :=
  | Continue (a : A)
  | Return (result : jsstring).
Arguments Continue {A} a.
Arguments Return {A} result.

(** main.ts, lines 106-169, in the order of the source: the folder
    check (lines 107-110), the credential guard (112-114), Step 1
    (116-124), Step 2 (126-134), the cap (136-140) and Steps 3 and 4
    (142-168). *)
Definition ensureTodayFolder : M unit :=
  present <- existsSync todayFolder;;
  if present then ret tt else mkdirSync todayFolder.

Definition imageDest : jsstring := path_join todayFolder imageFileName.

Definition step1 : M (Step unit) :=
  try_catch
    (downloadImage imageUrl imageDest;;
     console_log (js "Image downloaded to: " ++ imageDest);;
     ret (Continue tt))
    (fun _ =>
       console_error (js "Error downloading the image.");;
       ret (Return (js "Error downloading the image."))).

Definition step2 : M (Step (list N)) :=
  try_catch
    (description <- getImageDescription;;
     let imageDescription := or_else description (js "No description available.") in
     console_log (js "Image description received:  " ++ imageDescription);;
     ret (Continue imageDescription))
    (fun _ =>
       console_error (js "Error getting image description.");;
       ret (Return (js "Error getting image description."))).

Definition post_record (imageDescription : jsstring) (blob : BlobRef)
    (createdAt : jsstring) : PostRecord :=
  {| text := imageDescription;
     embed :=
       {| embed_type := js "app.bsky.embed.images";
          images :=
            [ {| alt := imageDescription;
                 image := blob;
                 aspectRatio := {| width := 1000; height := 500 |} |} ] |};
     createdAt := createdAt |}.

Definition publish (imageDescription : jsstring) : M jsstring :=
  (* Step 3 *)
  agent_login_call (default [] bskyHandle) (default [] bskyPassword);;
  imageDataUrl <- getImageDataUrl imageDest (js "jpg");;
  data <- convertDataURIToUint8Array imageDataUrl;;
  blob <- agent_uploadBlob_call data (js "image/jpeg");;
  (* Step 4 *)
  createdAt <- now_iso;;
  agent_post_call (post_record imageDescription blob createdAt);;
  ret (imageDescription ++ [10] ++ js "![Image](" ++ imageUrl ++ js ")").

Definition getPostText : M jsstring :=
  ensureTodayFolder;;
  if negb (truthy bskyHandle) || negb (truthy bskyPassword) then
    throw (Error (js "Bluesky handle or password is not defined"))
  else
    downloaded <- step1;;
    match downloaded with
    | Return result => ret result
    | Continue _ =>
        described <- step2;;
        match described with
        | Return result => ret result
        | Continue imageDescription => publish (truncate imageDescription)
        end
    end.

(** main.ts, lines 171-178.  Line 181 compares the URL of the module
    with itself, so [main] always runs, once. *)
Definition main : M unit :=
  try_catch
    (text <- getPostText;;
     stamp <- now_iso;;
     console_log (js "[" ++ stamp ++ js "] Posted: " ++ [34] ++ text ++ [34]))
    (fun error =>
       console_error_value (js "Error posting to Bluesky:") error).

End Program.

Arguments Continue {A} a.
Arguments Return {A} result.

(** A run starts with an empty trace. *)
Definition initial (d : gset (list N)) (f : gmap (list N) (list byte)) : State :=
  {| dirs := d; files := f; reads := 0; ticks := 0; trace := [] |}.

(** ** Reading a trace *)

(** The URLs requested, the blobs uploaded and the posts created. *)
Definition gets (events : list Event) : list (list N) :=
  flat_map (fun e => match e with HttpsGet url => [url] | _ => [] end) events.

Definition uploads (events : list Event) : list (list byte) :=
  flat_map (fun e => match e with UploadBlob data _ => [data] | _ => [] end) events.

Definition posts (events : list Event) : list PostRecord :=
  flat_map (fun e => match e with CreatePost record => [record] | _ => [] end) events.

(** Calls to the posting service; requests for the image or for its
    description. *)
Definition is_publication (e : Event) : bool :=
  match e with
  | Login _ _ | UploadBlob _ _ | CreatePost _ => true
  | _ => false
  end.

Definition is_acquisition_or_description (e : Event) : bool :=
  match e with
  | HttpsGet _ | CreateWriteStream _ | ReadFile _ | ChatCompletions _ _ _ => true
  | _ => false
  end.

(** Anything but a call to the posting service. *)
Definition no_publication (e : Event) : bool := negb (is_publication e).

(** A computation that adds only events accepted by [P] to the trace,
    however it ends. *)
Definition emits_only {A} (P : Event -> bool) (m : M A) : Prop :=
  forall s, exists events,
    trace (snd (m s)) = trace s ++ events /\ forallb P events = true.

(** The state after the folder check of [getPostText]. *)
Definition prepared (s : State) : State :=
  if bool_decide (todayFolder ∈ dirs s) || bool_decide (is_Some (files s !! todayFolder))
  then s
  else add_dir todayFolder (record_event (Mkdir todayFolder) s).

(** The state in which the response of the inference service is read. *)
Definition asked (w : World) (imageBuffer : list byte) (s : State) : State :=
  record_event
    (ChatCompletions endpoint (default [] (token w))
       (chat_request (dataUrl (js "jpg") imageBuffer)))
    (count_read (record_event (ReadFile imageDest) s)).

(** What is at the destination when [reject] runs after a failed save:
    nothing when the unlink succeeded; otherwise what the stream had
    written, or the earlier file when the stream could not be opened. *)
Definition left_behind (w : World) (response : IncomingMessage) (dest : list N)
    (s : State) : option (list byte) :=
  if unlink_fails w dest then
    match write_stream w dest with
    | WriteError written _ => Some (take written (payload response))
    | _ => files s !! dest
    end
  else None.

(** The error of a write stream that does not finish. *)
Definition stream_error (r : StreamResult) : option JsError :=
  match r with
  | Finish => None
  | OpenError err | WriteError _ err => Some err
  end.


(** ** Scenarios

    Concrete worlds, in the manner of the mocks of a test suite. *)

Module Scenario.

Definition snapshot : IncomingMessage :=
  {| statusCode := 200; headers_location := None; payload := Base64.bytes_of "X" |}.

Definition caption (content : option jsstring) : ChatResponse :=
  {| status := js "200"; error := NoErrorProperty;
     body := BodyObject (Some [ {| message_content := content |} ]) NoErrorProperty |}.

Definition credentials : gmap (list N) (list N) :=
  list_to_map [ (js "KEY_GITHUB_TOKEN", js "ghp_token");
                (js "BSKY_HANDLE", js "bot.bsky.social");
                (js "BSKY_PASSWORD", js "app-password") ].

(** Every external call succeeds: image bytes ["X"], description
    ["A cat on a bridge."]. *)
Definition sunny : World :=
  {| process_env := credentials;
     https_get := fun _ => Responded snapshot;
     write_stream := fun _ => Finish;
     unlink_fails := fun _ => false;
     read_fails := fun _ => false;
     chat_completions := fun _ => inr (caption (Some (js "A cat on a bridge.")));
     agent_login := fun _ _ => None;
     agent_uploadBlob := fun _ _ => inr (Blob (js "bafkreiblob"));
     agent_post := fun _ => None;
     clock := fun _ => 1700000000000%Z |}.

Definition with_env (e : gmap (list N) (list N)) (w : World) : World :=
  {| process_env := e; https_get := https_get w; write_stream := write_stream w;
     unlink_fails := unlink_fails w;
     read_fails := read_fails w; chat_completions := chat_completions w;
     agent_login := agent_login w; agent_uploadBlob := agent_uploadBlob w;
     agent_post := agent_post w; clock := clock w |}.

Definition with_https (g : jsstring -> GetResult) (w : World) : World :=
  {| process_env := process_env w; https_get := g; write_stream := write_stream w;
     unlink_fails := unlink_fails w;
     read_fails := read_fails w; chat_completions := chat_completions w;
     agent_login := agent_login w; agent_uploadBlob := agent_uploadBlob w;
     agent_post := agent_post w; clock := clock w |}.

Definition with_stream (r : StreamResult) (w : World) : World :=
  {| process_env := process_env w; https_get := https_get w; write_stream := fun _ => r;
     unlink_fails := unlink_fails w;
     read_fails := read_fails w; chat_completions := chat_completions w;
     agent_login := agent_login w; agent_uploadBlob := agent_uploadBlob w;
     agent_post := agent_post w; clock := clock w |}.


Definition with_chat (c : ChatRequest -> JsError + ChatResponse) (w : World) : World :=
  {| process_env := process_env w; https_get := https_get w; write_stream := write_stream w;
     unlink_fails := unlink_fails w;
     read_fails := read_fails w; chat_completions := c;
     agent_login := agent_login w; agent_uploadBlob := agent_uploadBlob w;
     agent_post := agent_post w; clock := clock w |}.

(** The camera answers with the given status and no Location. *)
Definition answering (code : N) : World :=
  with_https (fun _ => Responded {| statusCode := code; headers_location := None;
                                     payload := Base64.bytes_of "body" |}) sunny.



(** The disk fills up after one byte. *)
Definition disk_full : World :=
  with_stream (WriteError 1 (Error (js "ENOSPC: no space left on device, write"))) sunny.

(** A response that carries the error of the service as a property of
    its own, as the guard of line 71 expects it. *)
Definition rate_limited : World :=
  with_chat (fun _ => inr {| status := js "429";
                             error := ErrorObject (Some (js "rate limited"));
                             body := BodyObject None NoErrorProperty |}) sunny.

(** The inference service answers with an empty caption. *)
Definition speechless : World :=
  with_chat (fun _ => inr (caption (Some []))) sunny.

(** The inference service answers with a body that has no choices. *)
Definition malformed : World :=
  with_chat (fun _ => inr {| status := js "200"; error := NoErrorProperty;
                             body := BodyObject None NoErrorProperty |}) sunny.


(** No posting-service identifier in the environment. *)
Definition no_handle : World :=
  with_env (delete (js "BSKY_HANDLE") credentials) sunny.

(** A fresh working directory, and one in which the snapshot ["X"] is
    already stored. *)
Definition fresh : State := initial ∅ ∅.

Definition stored : State :=
  initial {[todayFolder]} {[imageDest := Base64.bytes_of "X"]}.

End Scenario.

(** ** Further readings of a run *)

(** The surrogate halves of UTF-16. *)
Definition is_high_surrogate (c : N) : bool := (55296 <=? c) && (c <=? 56319).
Definition is_low_surrogate (c : N) : bool := (56320 <=? c) && (c <=? 57343).

(** The calls to the posting service in a trace, in order. *)
Definition publication_events (events : list Event) : list Event :=
  List.filter is_publication events.

(** A computation after which the state is related to the state before,
    however it ends. *)
Definition preserves {A} (R : State -> State -> Prop) (m : M A) : Prop :=
  forall s, R s (snd (m s)).

(** Files and directories are as they were. *)
Definition same_files (s s' : State) : Prop :=
  files s' = files s /\ dirs s' = dirs s.

(** No file other than [dest] has changed, and no directory other than
    the working folder has been added. *)
Definition changed_only (dest : list N) (s s' : State) : Prop :=
  (forall path, path <> dest -> files s' !! path = files s !! path) /\
  dirs s ⊆ dirs s' /\ dirs s' ⊆ {[todayFolder]} ∪ dirs s.

(** Relations between states that hold across the steps that leave the
    files alone. *)
Class Stable (R : State -> State -> Prop) : Prop := {
  stable_refl : forall s, R s s;
  stable_trans : forall s1 s2 s3, R s1 s2 -> R s2 s3 -> R s1 s3;
  stable_event : forall e s, R s (record_event e s);
  stable_read : forall s, R s (count_read s);
  stable_tick : forall s, R s (count_tick s)
}.

(** Further worlds. *)
Module Cases.

(** No inference key in the environment. *)
Definition no_token : World :=
  Scenario.with_env (delete (js "KEY_GITHUB_TOKEN") Scenario.credentials) Scenario.sunny.

(** The inference service answers with an empty list of choices. *)
Definition choiceless : World :=
  Scenario.with_chat (fun _ => inr {| status := js "200"; error := NoErrorProperty;
                                      body := BodyObject (Some []) NoErrorProperty |})
    Scenario.sunny.

(** The posting service refuses the login, the upload, the post. *)
Definition refusing_login : World :=
  {| process_env := Scenario.credentials;
     https_get := https_get Scenario.sunny;
     write_stream := write_stream Scenario.sunny;
     unlink_fails := unlink_fails Scenario.sunny;
     read_fails := read_fails Scenario.sunny;
     chat_completions := chat_completions Scenario.sunny;
     agent_login := fun _ _ => Some (Error (js "Invalid identifier or password"));
     agent_uploadBlob := agent_uploadBlob Scenario.sunny;
     agent_post := agent_post Scenario.sunny;
     clock := clock Scenario.sunny |}.

Definition refusing_upload : World :=
  {| process_env := Scenario.credentials;
     https_get := https_get Scenario.sunny;
     write_stream := write_stream Scenario.sunny;
     unlink_fails := unlink_fails Scenario.sunny;
     read_fails := read_fails Scenario.sunny;
     chat_completions := chat_completions Scenario.sunny;
     agent_login := agent_login Scenario.sunny;
     agent_uploadBlob := fun _ _ => inl (Error (js "BlobTooLarge"));
     agent_post := agent_post Scenario.sunny;
     clock := clock Scenario.sunny |}.

(** The inference service answers 429, and the client hands on its
    error where the service put it, in the body. *)
Definition service_error : World :=
  Scenario.with_chat
    (fun _ => inr {| status := js "429"; error := NoErrorProperty;
                     body := BodyObject None (ErrorObject (Some (js "rate limited"))) |})
    Scenario.sunny.

(** The inference service answers with a body that is not JSON. *)
Definition text_body : World :=
  Scenario.with_chat
    (fun _ => inr {| status := js "200"; error := NoErrorProperty;
                     body := NotAnObject (js "Bad Gateway") |})
    Scenario.sunny.

(** The disk fills up after one byte of the body, and the partial file
    cannot be removed. *)
Definition stuck_file : World :=
  {| process_env := Scenario.credentials;
     https_get := https_get (Scenario.answering 200);
     write_stream := write_stream Scenario.disk_full;
     unlink_fails := fun _ => true;
     read_fails := read_fails Scenario.sunny;
     chat_completions := chat_completions Scenario.sunny;
     agent_login := agent_login Scenario.sunny;
     agent_uploadBlob := agent_uploadBlob Scenario.sunny;
     agent_post := agent_post Scenario.sunny;
     clock := clock Scenario.sunny |}.

(** The camera redirects to a relative location, which [https.get]
    does not take. *)
Definition relative_redirect : World :=
  Scenario.with_https
    (fun url =>
       if bool_decide (url = js "/public/kamera.jpg")
       then Refused (TypeError (js "Invalid URL"))
       else Responded {| statusCode := 302;
                         headers_location := Some (js "/public/kamera.jpg");
                         payload := [] |})
    Scenario.sunny.

(** A description of 299 letters followed by an emoji (a surrogate
    pair) and more text. *)
Definition long_description : list N :=
  repeat 97 299 ++ [55357; 56832] ++ repeat 98 10.

End Cases.

(** * Checks on concrete inputs *)

Example truncate_short : truncate (js "A cat on a bridge.") = js "A cat on a bridge.".
Proof. reflexivity. Qed.

Example truncate_301 :
  truncate (repeat 97 301) = repeat 97 300 ++ js "...".
Proof. reflexivity. Qed.

Example relative_redirect_is_uncaught :
  fst (main Cases.relative_redirect Scenario.fresh) = Exited 1 /\
  trace (snd (main Cases.relative_redirect Scenario.fresh))
  = [Mkdir todayFolder; HttpsGet imageUrl; HttpsGet (js "/public/kamera.jpg");
     UncaughtException (TypeError (js "Invalid URL"))].
Proof. split; reflexivity. Qed.

Example of_N_404 : of_N 404 = js "404" /\ of_N 0 = js "0" /\ of_N 1000 = js "1000".
Proof. repeat split. Qed.

Example split_comma :
  split 44 (js "a,b,,c") = [js "a"; js "b"; js ""; js "c"] /\ split 44 (js "") = [js ""].
Proof. split; reflexivity. Qed.

Example encode_vectors :
  Base64.encode (Base64.bytes_of "Man") = js "TWFu" /\
  Base64.encode (Base64.bytes_of "Ma") = js "TWE=" /\
  Base64.encode (Base64.bytes_of "M") = js "TQ==" /\
  Base64.encode (Base64.bytes_of "X") = js "WA==" /\
  Base64.encode [xff; xfe; xfd; xfc] = js "//79/A==".
Proof. repeat split. Qed.

Example atob_vectors :
  Base64.atob (js "TWFu") = Some (js "Man") /\
  Base64.atob (js "TWE=") = Some (js "Ma") /\
  Base64.atob (js "TWE") = Some (js "Ma") /\
  Base64.atob (js " T Q = = ") = Some (js "M") /\
  Base64.atob (js "") = Some [] /\
  Base64.atob (js "undefined") = None /\
  Base64.atob (js "TQ=") = None /\
  Base64.atob (js "//79/A==") = Some [255; 254; 253; 252].
Proof. repeat split. Qed.

Example toISOString_vectors :
  Date.toISOString 0 = js "1970-01-01T00:00:00.000Z" /\
  Date.toISOString 1700000000000 = js "2023-11-14T22:13:20.000Z" /\
  Date.toISOString 951782400123 = js "2000-02-29T00:00:00.123Z" /\
  Date.toISOString (-1) = js "1969-12-31T23:59:59.999Z" /\
  Date.toISOString 253402300800000 = js "+010000-01-01T00:00:00.000Z".
Proof. repeat split. Qed.

(** * Properties *)

(** ** Facts about base64 *)

Module Base64Facts.
Import Base64.

Ltac div_lia := zify; Z.to_euclidean_division_equations; lia.

(** Induction over a list three elements at a time, as [encode]
    consumes it. *)
Lemma list_ind3 {A} (P : list A -> Prop) :
  P [] -> (forall a, P [a]) -> (forall a b, P [a; b]) ->
  (forall a b c l, P l -> P (a :: b :: c :: l)) ->
  forall l, P l.
Proof.
  intros H0 H1 H2 H3 l.
  cut (P l /\ (forall a, P (a :: l)) /\ (forall a b, P (a :: b :: l))).
  { tauto. }
  induction l as [|x l (IH0 & IH1 & IH2)]; auto.
Qed.

Lemma byte_val_bound b : byte_val b < 256.
Proof. unfold byte_val. pose proof (Byte.to_N_bounded b). lia. Qed.

Lemma to_uint8_byte_val b : to_uint8 (byte_val b) = b.
Proof.
  unfold to_uint8. rewrite N.mod_small by apply byte_val_bound.
  unfold byte_val. by rewrite Byte.of_to_N.
Qed.

Lemma encode_groups bs :
  encode bs = map b64char (groups bs) ++ repeat pad (padding bs).
Proof.
  induction bs as [|a|a b|a b c l IH] using list_ind3; try reflexivity.
  cbn [encode groups padding map app]. by rewrite IH.
Qed.

Lemma groups_bound bs : Forall (fun v => v < 64) (groups bs).
Proof.
  induction bs as [|a|a b|a b c l IH] using list_ind3; cbn [groups];
    repeat match goal with
           | |- context [byte_val ?x] =>
               let H := fresh in
               pose proof (byte_val_bound x) as H; generalize dependent (byte_val x); intros
           end;
    repeat (constructor; [div_lia|]); auto.
Qed.

Lemma padding_le bs : (padding bs <= 2)%nat.
Proof. induction bs using list_ind3; cbn [padding]; lia. Qed.

Lemma decode_groups bs : decode (groups bs) = map byte_val bs.
Proof.
  induction bs as [|a|a b|a b c l IH] using list_ind3;
    cbn [groups decode map];
    repeat match goal with
           | |- context [byte_val ?x] =>
               let H := fresh in
               pose proof (byte_val_bound x) as H; generalize dependent (byte_val x); intros
           end.
  - reflexivity.
  - f_equal. div_lia.
  - f_equal; [div_lia|]. f_equal. div_lia.
  - rewrite IH. f_equal; [div_lia|]. f_equal; [div_lia|]. f_equal. div_lia.
Qed.

(** The shape of the output: a multiple of four characters, and the
    unpadded part never one more than a multiple of four. *)
Lemma groups_length bs :
  (exists k, length (groups bs) + padding bs = 4 * k)%nat /\
  (exists k r, length (groups bs) = 4 * k + r /\ (r = 0 \/ r = 2 \/ r = 3))%nat.
Proof.
  induction bs as [|a|a b|a b c l [[k Hk] [k' [r [Hr Hc]]]]] using list_ind3;
    cbn [groups padding length].
  - split; [exists 0%nat; lia | exists 0%nat, 0%nat; lia].
  - split; [exists 1%nat; lia | exists 0%nat, 2%nat; lia].
  - split; [exists 1%nat; lia | exists 0%nat, 3%nat; lia].
  - split; [exists (S k); lia | exists (S k'), r; lia].
Qed.

(** The alphabet. *)
Lemma sextet_b64char v : v < 64 -> sextet (b64char v) = Some v.
Proof.
  intros Hv. destruct v as [|p]; [reflexivity|].
  do 6 (destruct p as [p|p|]; try reflexivity); lia.
Qed.

Lemma b64char_plain v :
  v < 64 -> (b64char v =? pad) = false /\ is_ws (b64char v) = false /\ b64char v <> 44.
Proof.
  intros Hv. destruct v as [|p]; [done|].
  do 6 (destruct p as [p|p|]; try done); lia.
Qed.

Lemma sextets_map vs : Forall (fun v => v < 64) vs -> sextets (map b64char vs) = Some vs.
Proof.
  induction 1 as [|v vs Hv _ IH]; [reflexivity|].
  cbn [map sextets]. by rewrite sextet_b64char, IH.
Qed.

(** An encoded text: alphabet characters followed by at most two [=]. *)
Lemma filter_encoded vs k :
  Forall (fun v => v < 64) vs ->
  filter (fun c => is_ws c = false) (map b64char vs ++ repeat pad k)
  = map b64char vs ++ repeat pad k.
Proof.
  intros Hvs. rewrite filter_app. f_equal.
  - induction Hvs as [|v vs Hv _ IH]; [done|].
    cbn [map]. rewrite filter_cons_True by by apply b64char_plain.
    by rewrite IH.
  - induction k as [|k IH]; [done|].
    cbn [repeat]. by rewrite filter_cons_True, IH.
Qed.

Lemma strip_padding_encoded vs k :
  Forall (fun v => v < 64) vs -> (k <= 2)%nat ->
  strip_padding (map b64char vs ++ repeat pad k) = map b64char vs.
Proof.
  intros Hvs Hk. unfold strip_padding.
  assert (Hlast : forall r c, rev (map b64char vs) = c :: r -> (c =? pad) = false).
  { intros r c Hr.
    assert (Hin : In c (rev (map b64char vs))) by (rewrite Hr; left; reflexivity).
    apply in_rev, in_map_iff in Hin. destruct Hin as (v & <- & Hv).
    rewrite Forall_forall in Hvs. apply b64char_plain, Hvs, list_elem_of_In, Hv. }
  rewrite rev_app_distr.
  assert (Hrep : rev (repeat pad k) = repeat pad k).
  { clear. induction k as [|k IH]; [done|].
    cbn [repeat rev]. rewrite IH. change [pad] with (repeat pad 1).
    rewrite <- repeat_app. by replace (k + 1)%nat with (S k) by lia. }
  rewrite Hrep.
  destruct k as [|[|[|k]]]; [| | |lia]; cbn [repeat app].
  - rewrite app_nil_r.
    destruct (rev (map b64char vs)) as [|c r] eqn:Hr; [done|].
    by rewrite (Hlast r c).
  - change (pad =? pad) with true. cbn iota.
    destruct (rev (map b64char vs)) as [|c r] eqn:Hr.
    + by rewrite <- (rev_involutive (map _ _)), Hr.
    + rewrite (Hlast r c) by done. by rewrite <- Hr, rev_involutive.
  - change (pad =? pad) with true. cbn iota. by rewrite rev_involutive.
Qed.

(** Decoding an encoding gives back the values of the bytes. *)
Lemma atob_encode bs : atob (encode bs) = Some (map byte_val bs).
Proof.
  pose proof (groups_bound bs) as Hb.
  pose proof (padding_le bs) as Hp.
  destruct (groups_length bs) as [[k Hk] [k' [r [Hr Hc]]]].
  unfold atob. rewrite encode_groups, filter_encoded by done.
  assert (Hlen : (length (map b64char (groups bs) ++ repeat pad (padding bs)) mod 4 = 0)%nat).
  { rewrite length_app, length_map, repeat_length, Hk.
    rewrite Nat.mul_comm. apply Nat.Div0.mod_mul. }
  rewrite Hlen. cbn [Nat.eqb].
  rewrite strip_padding_encoded by done.
  assert (Hne : Nat.eqb (length (map b64char (groups bs)) mod 4) 1 = false).
  { rewrite length_map, Hr. apply Nat.eqb_neq.
    rewrite Nat.add_comm, Nat.mul_comm, Nat.Div0.mod_add.
    destruct Hc as [-> | [-> | ->]]; cbn; lia. }
  rewrite Hne, sextets_map by done.
  cbn. by rewrite decode_groups.
Qed.

Lemma comma_not_encoded bs : 44 ∉ encode bs.
Proof.
  rewrite encode_groups, elem_of_app. intros [Hin | Hin].
  - apply list_elem_of_fmap in Hin. destruct Hin as (v & Hv & Hin).
    pose proof (groups_bound bs) as Hb. rewrite Forall_forall in Hb.
    symmetry in Hv. revert Hv. by apply b64char_plain, Hb.
  - apply list_elem_of_In, repeat_spec in Hin. discriminate.
Qed.

End Base64Facts.

(** ** Facts about data URIs *)

Module DataUriFacts.
Import Base64 Base64Facts.

Lemma split_no_sep sep s : sep ∉ s -> split sep s = [s].
Proof.
  induction s as [|c s IH]; [done|].
  intros Hnot. apply not_elem_of_cons in Hnot as [Hc Hs].
  cbn [split]. rewrite (proj2 (N.eqb_neq c sep)) by congruence.
  by rewrite IH.
Qed.

Lemma split_app sep p q :
  sep ∉ p -> split sep (p ++ sep :: q) = p :: split sep q.
Proof.
  induction p as [|c p IH]; intros Hnot.
  - cbn [app split]. by rewrite N.eqb_refl.
  - apply not_elem_of_cons in Hnot as [Hc Hp].
    cbn [app split]. rewrite (proj2 (N.eqb_neq c sep)) by congruence.
    by rewrite IH.
Qed.

(** The loop of lines 100-102 stores every code unit at its index. *)
Lemma fill_prefix byteString n :
  (n <= length byteString)%nat ->
  foldl (fun arr i => <[i := to_uint8 (charCodeAt byteString i)]> arr)
        (repeat x00 (length byteString)) (seq 0 n)
  = map to_uint8 (take n byteString) ++ repeat x00 (length byteString - n).
Proof.
  induction n as [|n IH]; intros Hn.
  - cbn. by rewrite Nat.sub_0_r.
  - rewrite seq_S, foldl_app, IH by lia. cbn [foldl Nat.add].
    destruct (lookup_lt_is_Some_2 byteString n) as [c Hc]; [lia|].
    rewrite (take_S_r _ _ c) by done.
    rewrite map_app, <- app_assoc. cbn [map app].
    replace (length byteString - n)%nat with (S (length byteString - S n)) by lia.
    cbn [repeat].
    rewrite insert_app_r_alt by (rewrite length_map, length_take; lia).
    rewrite length_map, length_take.
    replace (n - n `min` length byteString)%nat with 0%nat by lia.
    cbn [insert list_insert]. unfold charCodeAt.
    by rewrite (nth_lookup_Some _ _ _ _ Hc).
Qed.

Lemma fill_all byteString :
  fill byteString (repeat x00 (length byteString)) = map to_uint8 byteString.
Proof.
  unfold fill. rewrite fill_prefix by lia.
  rewrite firstn_all, Nat.sub_diag. apply app_nil_r.
Qed.

(** Decoding the data URI of a buffer gives the buffer back. *)
Lemma convert_dataUrl imageFormat imageBuffer s :
  44 ∉ imageFormat ->
  convertDataURIToUint8Array (dataUrl imageFormat imageBuffer) s
  = (Returned imageBuffer, s).
Proof.
  intros Hfmt. unfold convertDataURIToUint8Array, dataUrl.
  replace (js "data:image/" ++ imageFormat ++ js ";base64," ++ encode imageBuffer)
    with ((js "data:image/" ++ imageFormat ++ js ";base64") ++ 44 :: encode imageBuffer)
    by (rewrite <- !app_assoc; reflexivity).
  rewrite split_app.
  2:{ rewrite !elem_of_app. intros [Hin | [Hin | Hin]]; [|done|];
        apply list_elem_of_In in Hin; cbn in Hin;
        repeat (destruct Hin as [Hin|Hin]; [discriminate|]); done. }
  rewrite split_no_sep by apply comma_not_encoded.
  cbn -[atob encode fill].
  rewrite atob_encode. rewrite fill_all, map_map.
  unfold ret. do 2 f_equal.
  rewrite <- (map_id imageBuffer) at 2. apply map_ext, to_uint8_byte_val.
Qed.

End DataUriFacts.

(** ** Running computations *)

Section Run.
Context {A B : Type}.
Implicit Types (m : M A) (k : A -> M B) (s : State).

Lemma bind_returned m k s a s' :
  m s = (Returned a, s') -> (x <- m;; k x) s = k a s'.
Proof. unfold bind. by intros ->. Qed.

Lemma bind_thrown m k s e s' :
  m s = (Thrown e, s') -> (x <- m;; k x) s = (Thrown e, s').
Proof. unfold bind. by intros ->. Qed.

Lemma bind_exited m k s c s' :
  m s = (Exited c, s') -> (x <- m;; k x) s = (Exited c, s').
Proof. unfold bind. by intros ->. Qed.

Lemma try_catch_returned m (h : JsError -> M A) s a s' :
  m s = (Returned a, s') -> try_catch m h s = (Returned a, s').
Proof. unfold try_catch. by intros ->. Qed.

Lemma try_catch_thrown m (h : JsError -> M A) s e s' :
  m s = (Thrown e, s') -> try_catch m h s = h e s'.
Proof. unfold try_catch. by intros ->. Qed.

Lemma try_catch_exited m (h : JsError -> M A) s c s' :
  m s = (Exited c, s') -> try_catch m h s = (Exited c, s').
Proof. unfold try_catch. by intros ->. Qed.
End Run.

(** ** Reading traces and states *)

Ltac state_simpl :=
  cbn [trace files dirs reads ticks record_event update_files add_dir count_read
       count_tick fst snd].

Ltac run_simpl :=
  cbn [bind emit set_files unlink throw ret console_log console_error
       console_error_value process_exit uncaught try_catch trace files dirs reads ticks record_event update_files add_dir
       count_read count_tick fst snd].

Ltac trace_solve := run_simpl; rewrite <- ?app_assoc; reflexivity.


Lemma saveImageToFile_error w {A} response dest (resolve : M A) reject s err :
  stream_error (write_stream w dest) = Some err ->
  exists s',
    saveImageToFile w response dest resolve reject s = reject err s' /\
    files s' !! dest = left_behind w response dest s /\
    trace s' = trace s ++ [CreateWriteStream dest; Unlink dest].
Proof.
  unfold saveImageToFile, left_behind, unlink.
  destruct (write_stream w dest) as [|e|n e]; intros [= ->];
    destruct (unlink_fails w dest);
    (eexists; split; [reflexivity|]; split; [run_simpl | trace_solve]).
  - reflexivity.
  - apply lookup_delete_eq.
  - apply lookup_insert_eq.
  - apply lookup_delete_eq.
Qed.

(** [downloadImage], one request at a time. *)
Lemma downloadImage_eq w url dest s :
  downloadImage w url dest s =
  let s1 := record_event (HttpsGet url) s in
  match https_get w url with
  | Refused err => (Thrown err, s1)
  | RequestError err => (Thrown err, s1)
  | Responded response =>
      if (statusCode response =? 302) && truthy (headers_location response) then
        let location := default [] (headers_location response) in
        let s2 := record_event (HttpsGet location) s1 in
        match https_get w location with
        | Refused err => (Exited 1%Z, record_event (UncaughtException err) s2)
        | RequestError err => (Thrown err, s2)
        | Responded redirectedResponse =>
            saveImageToFile w redirectedResponse dest (ret tt) throw s2
        end
      else if statusCode response =? 200 then
        saveImageToFile w response dest (ret tt) throw s1
      else
        (Thrown (Error (js "Failed to download image. Status Code: "
                          ++ of_N (statusCode response))), s1)
  end.
Proof.
  unfold downloadImage. cbv zeta. unfold bind at 1. cbn [emit].
  destruct (https_get w url) as [response|err|err]; [|reflexivity..].
  destruct ((statusCode response =? 302) && truthy (headers_location response)).
  - unfold bind at 1. cbn [emit]. by destruct (https_get w _).
  - by destruct (statusCode response =? 200).
Qed.

(** Saving requests nothing more, whatever the end of the stream. *)
Lemma saveImageToFile_gets w response dest s :
  exists events,
    trace (snd (saveImageToFile w response dest (ret tt) throw s)) = trace s ++ events /\
    gets events = [].
Proof.
  unfold saveImageToFile, unlink.
  destruct (write_stream w dest); try destruct (unlink_fails w dest);
    (eexists; split; [trace_solve | reflexivity]).
Qed.

(** ** Reading the image and asking for a description *)

Lemma getImageDataUrl_read w imageFile imageFormat s imageBuffer :
  files s !! imageFile = Some imageBuffer ->
  read_fails w (reads s) = false ->
  getImageDataUrl w imageFile imageFormat s
  = (Returned (dataUrl imageFormat imageBuffer),
     count_read (record_event (ReadFile imageFile) s)).
Proof.
  intros Hfile Hread. unfold getImageDataUrl, try_catch, bind, readFileSync.
  by rewrite Hfile, Hread.
Qed.

Lemma getImageDataUrl_unreadable w imageFile imageFormat s :
  files s !! imageFile = None \/ read_fails w (reads s) = true ->
  getImageDataUrl w imageFile imageFormat s
  = (Exited 1,
     record_event (ProcessExit 1)
       (record_event (ConsoleError (could_not_read imageFile))
          (count_read (record_event (ReadFile imageFile) s)))).
Proof.
  intros Hbad. unfold getImageDataUrl, try_catch, bind, readFileSync.
  destruct (files s !! imageFile) as [content|] eqn:Hfile.
  - destruct Hbad as [? | ->]; [done|]. reflexivity.
  - reflexivity.
Qed.

Lemma getImageDescription_eq w s imageBuffer :
  truthy (token w) = true ->
  files s !! imageDest = Some imageBuffer ->
  read_fails w (reads s) = false ->
  getImageDescription w s =
  match chat_completions w (chat_request (dataUrl (js "jpg") imageBuffer)) with
  | inl err => (Thrown err, asked w imageBuffer s)
  | inr response => read_response response (asked w imageBuffer s)
  end.
Proof.
  intros Htoken Hfile Hread. unfold getImageDescription. rewrite Htoken. cbn [negb].
  erewrite bind_returned by (by apply getImageDataUrl_read).
  unfold bind, emit, asked. by destruct (chat_completions w _).
Qed.

(** ** What a computation may add to the trace *)

Section EmitsOnly.
Context (P : Event -> bool).

Lemma emits_only_ret {A} (a : A) : emits_only P (ret a).
Proof. intros s. exists []. by rewrite app_nil_r. Qed.

Lemma emits_only_throw {A} e : emits_only P (throw (A := A) e).
Proof. intros s. exists []. by rewrite app_nil_r. Qed.

Lemma emits_only_emit e : P e = true -> emits_only P (emit e).
Proof. intros He s. exists [e]. split; [reflexivity|]. cbn. by rewrite He. Qed.

Lemma emits_only_exit {A} code :
  P (ProcessExit code) = true -> emits_only P (process_exit (A := A) code).
Proof. intros He s. exists [ProcessExit code]. split; [reflexivity|]. cbn. by rewrite He. Qed.

Lemma emits_only_set_files f : emits_only P (set_files f).
Proof. intros s. exists []. by rewrite app_nil_r. Qed.

Lemma emits_only_uncaught {A} e :
  P (UncaughtException e) = true -> emits_only P (uncaught (A := A) e).
Proof. intros He s. exists [UncaughtException e]. split; [reflexivity|]. cbn. by rewrite He. Qed.

Lemma emits_only_bind {A B} (m : M A) (k : A -> M B) :
  emits_only P m -> (forall a, emits_only P (k a)) -> emits_only P (x <- m;; k x).
Proof.
  intros Hm Hk s. destruct (Hm s) as (ev1 & Ht1 & Hp1). unfold bind.
  destruct (m s) as [[a|e|c] s1]; cbn [snd] in *; [|by exists ev1..].
  destruct (Hk a s1) as (ev2 & Ht2 & Hp2). exists (ev1 ++ ev2).
  rewrite Ht2, Ht1, <- app_assoc, forallb_app, Hp1, Hp2. done.
Qed.

Lemma emits_only_try_catch {A} (m : M A) (h : JsError -> M A) :
  emits_only P m -> (forall e, emits_only P (h e)) -> emits_only P (try_catch m h).
Proof.
  intros Hm Hh s. destruct (Hm s) as (ev1 & Ht1 & Hp1). unfold try_catch.
  destruct (m s) as [[a|e|c] s1]; cbn [snd] in *; [by exists ev1| |by exists ev1].
  destruct (Hh e s1) as (ev2 & Ht2 & Hp2). exists (ev1 ++ ev2).
  rewrite Ht2, Ht1, <- app_assoc, forallb_app, Hp1, Hp2. done.
Qed.

End EmitsOnly.

Ltac emits_step :=
  first
    [ apply emits_only_ret
    | apply emits_only_throw
    | apply emits_only_set_files
    | apply emits_only_emit; reflexivity
    | apply emits_only_exit; reflexivity
    | apply emits_only_uncaught; reflexivity
    | apply emits_only_bind; [|intros]
    | apply emits_only_try_catch; [|intros]
    | match goal with
      | |- emits_only _ (match ?x with _ => _ end) => destruct x
      | |- emits_only _ (if ?x then _ else _) => destruct x
      end ].

Lemma emits_only_downloadImage w url dest :
  emits_only no_publication (downloadImage w url dest).
Proof.
  unfold downloadImage, saveImageToFile, unlink. cbv zeta. repeat emits_step.
Qed.

Lemma emits_only_readFileSync w path : emits_only no_publication (readFileSync w path).
Proof.
  intros s. exists [ReadFile path]. split; [|reflexivity].
  unfold readFileSync. by repeat case_match.
Qed.

Lemma emits_only_getImageDescription w :
  emits_only no_publication (getImageDescription w).
Proof.
  unfold getImageDescription, getImageDataUrl, read_response, console_error. cbv zeta.
  repeat first [ apply emits_only_readFileSync | emits_step ].
Qed.

Lemma emits_only_step1 w : emits_only no_publication (step1 w).
Proof.
  unfold step1, console_log, console_error.
  repeat first [ apply emits_only_downloadImage | emits_step ].
Qed.

Lemma emits_only_step2 w : emits_only no_publication (step2 w).
Proof.
  unfold step2, console_log, console_error. cbv zeta.
  repeat first [ apply emits_only_getImageDescription | emits_step ].
Qed.

(** ** The orchestration *)

Lemma ensureTodayFolder_eq s : ensureTodayFolder s = (Returned tt, prepared s).
Proof.
  unfold ensureTodayFolder, prepared, bind, existsSync, mkdirSync.
  by destruct (_ || _).
Qed.

Lemma prepared_trace s :
  trace (prepared s) = trace s \/ trace (prepared s) = trace s ++ [Mkdir todayFolder].
Proof. unfold prepared. destruct (_ || _); [by left | by right]. Qed.

Lemma getPostText_eq w s :
  getPostText w s =
  if negb (truthy (bskyHandle w)) || negb (truthy (bskyPassword w)) then
    (Thrown (Error (js "Bluesky handle or password is not defined")), prepared s)
  else
    match step1 w (prepared s) with
    | (Returned (Continue _), s1) =>
        match step2 w s1 with
        | (Returned (Continue imageDescription), s2) =>
            publish w (truncate imageDescription) s2
        | (Returned (Return result), s2) => (Returned result, s2)
        | (Thrown e, s2) => (Thrown e, s2)
        | (Exited code, s2) => (Exited code, s2)
        end
    | (Returned (Return result), s1) => (Returned result, s1)
    | (Thrown e, s1) => (Thrown e, s1)
    | (Exited code, s1) => (Exited code, s1)
    end.
Proof.
  unfold getPostText. erewrite bind_returned by apply ensureTodayFolder_eq.
  destruct (_ || _); [reflexivity|]. unfold bind.
  destruct (step1 w (prepared s)) as [[[[]|result]|e|code] s1]; try reflexivity.
  by destruct (step2 w s1) as [[[d|result]|e|code] s2].
Qed.

Lemma step1_eq w s :
  step1 w s =
  match downloadImage w imageUrl imageDest s with
  | (Returned _, s1) =>
      (Returned (Continue tt),
       record_event (ConsoleLog (js "Image downloaded to: " ++ imageDest)) s1)
  | (Thrown _, s1) =>
      (Returned (Return (js "Error downloading the image.")),
       record_event (ConsoleError (js "Error downloading the image.")) s1)
  | (Exited code, s1) => (Exited code, s1)
  end.
Proof.
  unfold step1, try_catch, bind.
  by destruct (downloadImage w imageUrl imageDest s) as [[[]|e|code] s1].
Qed.

Lemma step2_eq w s :
  step2 w s =
  match getImageDescription w s with
  | (Returned description, s1) =>
      let imageDescription := or_else description (js "No description available.") in
      (Returned (Continue imageDescription),
       record_event (ConsoleLog (js "Image description received:  " ++ imageDescription)) s1)
  | (Thrown _, s1) =>
      (Returned (Return (js "Error getting image description.")),
       record_event (ConsoleError (js "Error getting image description.")) s1)
  | (Exited code, s1) => (Exited code, s1)
  end.
Proof.
  unfold step2, try_catch, bind.
  by destruct (getImageDescription w s) as [[d|e|code] s1].
Qed.

(** ** Publication *)

Lemma no_comma_in_jpg : 44 ∉ js "jpg".
Proof.
  intros Hin. apply list_elem_of_In in Hin. cbn in Hin.
  repeat (destruct Hin as [Hin|Hin]; [discriminate|]). done.
Qed.

(** The state in which the blob is uploaded. *)
Lemma publish_eq w imageDescription s imageBuffer :
  agent_login w (default [] (bskyHandle w)) (default [] (bskyPassword w)) = None ->
  files s !! imageDest = Some imageBuffer ->
  read_fails w (reads s) = false ->
  publish w imageDescription s =
  let s1 :=
    record_event (UploadBlob imageBuffer (js "image/jpeg"))
      (count_read
         (record_event (ReadFile imageDest)
            (record_event (Login (default [] (bskyHandle w)) (default [] (bskyPassword w))) s))) in
  match agent_uploadBlob w imageBuffer (js "image/jpeg") with
  | inl err => (Thrown err, s1)
  | inr blob =>
      let record := post_record imageDescription blob (Date.toISOString (clock w (ticks s))) in
      let s2 := record_event (CreatePost record) (count_tick s1) in
      match agent_post w record with
      | Some err => (Thrown err, s2)
      | None =>
          (Returned (imageDescription ++ [10] ++ js "![Image](" ++ imageUrl ++ js ")"), s2)
      end
  end.
Proof.
  intros Hlogin Hfile Hread. unfold publish.
  erewrite bind_returned by (unfold agent_login_call, bind, emit; by rewrite Hlogin).
  erewrite bind_returned by (by apply getImageDataUrl_read).
  erewrite bind_returned by (apply DataUriFacts.convert_dataUrl, no_comma_in_jpg).
  unfold agent_uploadBlob_call, agent_post_call, bind, emit, now_iso, ret, throw.
  cbv zeta. destruct (agent_uploadBlob w imageBuffer _) as [err|blob]; [reflexivity|].
  run_simpl. by destruct (agent_post w _).
Qed.

Lemma posts_app e1 e2 : posts (e1 ++ e2) = posts e1 ++ posts e2.
Proof. apply flat_map_app. Qed.

Lemma uploads_app e1 e2 : uploads (e1 ++ e2) = uploads e1 ++ uploads e2.
Proof. apply flat_map_app. Qed.

Lemma no_publication_quiet events :
  forallb no_publication events = true -> posts events = [] /\ uploads events = [].
Proof.
  induction events as [|e events IH]; [done|]. cbn [forallb].
  intros [He Hrest]%andb_true_iff. destruct (IH Hrest) as [Hp Hu].
  unfold posts, uploads in *. cbn [flat_map]. rewrite Hp, Hu.
  by destruct e.
Qed.

(** ** The shape of a timestamp *)

Lemma padded_length width n : length (Date.padded width n) = width.
Proof.
  revert n. induction width as [|width IH]; intros n; [reflexivity|].
  cbn [Date.padded]. rewrite length_app, IH. cbn. lia.
Qed.

(** For a year of four digits the timestamp has the 24 characters of
    [YYYY-MM-DDTHH:mm:ss.sssZ]. *)
Lemma toISOString_length t :
  (0 <= fst (fst (Date.civil_from_days (t / Date.msPerDay))) <= 9999)%Z ->
  length (Date.toISOString t) = 24%nat.
Proof.
  unfold Date.toISOString.
  destruct (Date.civil_from_days (t / Date.msPerDay)) as [[y m0] d]. cbn [fst].
  intros Hy.
  rewrite (proj2 (Z.leb_le 0 y)), (proj2 (Z.leb_le y 9999)) by lia. cbn [andb].
  rewrite !length_app, !padded_length. reflexivity.
Qed.

(** * The claims *)

(** C1.  The cap on the description is a function of the string alone:
    a string of at most 300 code units is returned unchanged; a longer
    one becomes a string of exactly 303 code units that starts with the
    first 300 code units of the input and ends with ["..."]. *)
Theorem truncate_cap (S : list N) :
  ((length S <= 300)%nat -> truncate S = S) /\
  ((300 < length S)%nat ->
     length (truncate S) = 303%nat /\
     take 300 (truncate S) = take 300 S /\
     ends_with (js "...") (truncate S)).
Proof.
  unfold truncate, maxGraphemes, slice0. split; intros Hlen.
  - by rewrite (proj2 (Nat.ltb_ge _ _)) by lia.
  - rewrite (proj2 (Nat.ltb_lt _ _)) by lia.
    assert (Htake : length (take 300 S) = 300%nat) by (rewrite length_take; lia).
    repeat split.
    + rewrite length_app, Htake. reflexivity.
    + rewrite take_app_le by lia. rewrite take_take. f_equal.
    + unfold ends_with. rewrite length_app, Htake.
      by rewrite drop_app_length' by (rewrite Htake; reflexivity).
Qed.

(** The cap on a short and on a long description. *)
Lemma truncate_cap_witness :
  truncate (js "A cat on a bridge.") = js "A cat on a bridge." /\
  length (truncate (repeat 97 301)) = 303%nat.
Proof.
  split.
  - apply (proj1 (truncate_cap (js "A cat on a bridge."))). cbn. lia.
  - apply (proj2 (truncate_cap (repeat 97 301))). cbn. lia.
Defined.

(** C2, as the code has it.  With the posting credentials present, a
    failure of the download or of the description is caught and logged,
    and [getPostText] returns the placeholder at once: the state in
    which it returns is the state of the failure plus the one log
    line, and the run has made no call to the posting service (no
    login, no upload, no post). *)
Theorem early_failure_returns_placeholder w s :
  truthy (bskyHandle w) = true -> truthy (bskyPassword w) = true ->
  (forall e s1,
     downloadImage w imageUrl imageDest (prepared s) = (Thrown e, s1) ->
     getPostText w s
     = (Returned (js "Error downloading the image."),
        record_event (ConsoleError (js "Error downloading the image.")) s1)) /\
  (forall s1 e s2,
     step1 w (prepared s) = (Returned (Continue tt), s1) ->
     getImageDescription w s1 = (Thrown e, s2) ->
     getPostText w s
     = (Returned (js "Error getting image description."),
        record_event (ConsoleError (js "Error getting image description.")) s2)) /\
  (forall result s',
     getPostText w s = (Returned result, s') ->
     result = js "Error downloading the image." \/
     result = js "Error getting image description." ->
     exists events,
       trace s' = trace s ++ events /\ forallb no_publication events = true).
Proof.
  intros Hhandle Hpassword.
  assert (Heq := getPostText_eq w s). rewrite Hhandle, Hpassword in Heq. cbn [negb orb] in Heq.
  split; [|split].
  - intros e s1 Hdl. rewrite Heq, step1_eq, Hdl. reflexivity.
  - intros s1 e s2 Hstep1 Hdesc. rewrite Heq, Hstep1, step2_eq, Hdesc. reflexivity.
  - intros result s' Hrun Hresult. rewrite Heq in Hrun.
    assert (Hprep : exists ev0, trace (prepared s) = trace s ++ ev0 /\
                                forallb no_publication ev0 = true).
    { destruct (prepared_trace s) as [-> | ->]; [exists [] | exists [Mkdir todayFolder]];
        by rewrite ?app_nil_r. }
    destruct Hprep as (ev0 & Ht0 & Hp0).
    destruct (emits_only_step1 w (prepared s)) as (ev1 & Ht1 & Hp1).
    destruct (step1 w (prepared s)) as [[[[]|r1]|e1|c1] s1]; cbn [snd] in Ht1;
      [|injection Hrun as <- <-|done..].
    + destruct (emits_only_step2 w s1) as (ev2 & Ht2 & Hp2).
      destruct (step2 w s1) as [[[d|r2]|e2|c2] s2]; cbn [snd] in Ht2;
        [|injection Hrun as <- <-|done..].
      * exfalso. unfold publish in Hrun.
        revert Hrun. unfold bind, agent_login_call, agent_uploadBlob_call, agent_post_call,
          convertDataURIToUint8Array, now_iso, emit, ret, throw.
        repeat case_match; intros [= <- <-]; simplify_eq;
          destruct Hresult as [Hr | Hr];
          apply (f_equal (fun l => last l)) in Hr; revert Hr;
          rewrite !last_app; cbn; discriminate.
      * exists (ev0 ++ ev1 ++ ev2).
        rewrite Ht2, Ht1, Ht0, <- !app_assoc, !forallb_app, Hp0, Hp1, Hp2. done.
    + exists (ev0 ++ ev1). rewrite Ht1, Ht0, <- !app_assoc, !forallb_app, Hp0, Hp1. done.
Qed.

(** A camera that answers 404. *)
Lemma early_failure_returns_placeholder_witness :
  getPostText (Scenario.answering 404) Scenario.fresh
  = (Returned (js "Error downloading the image."),
     record_event (ConsoleError (js "Error downloading the image."))
       (record_event (HttpsGet imageUrl) (prepared Scenario.fresh))).
Proof.
  apply (proj1 (early_failure_returns_placeholder (Scenario.answering 404) Scenario.fresh
                  eq_refl eq_refl)
           (Error (js "Failed to download image. Status Code: 404"))).
  reflexivity.
Defined.

(** Against C2 as stated: after a failed download, and after a failed
    description, the run makes no login, no upload and no post. *)
Lemma failed_step_halts_the_pipeline :
  (fst (downloadImage (Scenario.answering 404) imageUrl imageDest (prepared Scenario.fresh))
   = Thrown (Error (js "Failed to download image. Status Code: 404")) /\
   fst (getPostText (Scenario.answering 404) Scenario.fresh)
   = Returned (js "Error downloading the image.") /\
   trace (snd (getPostText (Scenario.answering 404) Scenario.fresh))
   = [Mkdir todayFolder; HttpsGet imageUrl;
      ConsoleError (js "Error downloading the image.")] /\
   existsb is_publication
     (trace (snd (getPostText (Scenario.answering 404) Scenario.fresh))) = false) /\
  (fst (getImageDescription Scenario.rate_limited Scenario.stored)
   = Thrown (Error (js "rate limited")) /\
   fst (getPostText Scenario.rate_limited Scenario.fresh)
   = Returned (js "Error getting image description.") /\
   uploads (trace (snd (getPostText Scenario.rate_limited Scenario.fresh))) = [] /\
   posts (trace (snd (getPostText Scenario.rate_limited Scenario.fresh))) = [] /\
   existsb is_publication
     (trace (snd (getPostText Scenario.rate_limited Scenario.fresh))) = false).
Proof. repeat split. Qed.




(** C4, as the code has it.  When the write stream to the destination
    reports an error, [saveImageToFile] creates the stream, calls
    [unlink] on the destination and only then runs [reject] with the
    error of the stream.  The outcome of the unlink is ignored: when it
    succeeds, [reject] runs in a state in which the destination does
    not exist; when it fails, [reject] runs all the same and the
    destination holds what was left there.  For [downloadImage], at
    both of its call sites, the promise is rejected with the error of
    the stream after the unlink. *)
Theorem write_error_unlinks_before_reject w url dest s response err :
  stream_error (write_stream w dest) = Some err ->
  (forall (A : Type) (resolve : M A) (reject : JsError -> M A),
     exists s',
       saveImageToFile w response dest resolve reject s = reject err s' /\
       files s' !! dest = left_behind w response dest s /\
       trace s' = trace s ++ [CreateWriteStream dest; Unlink dest]) /\
  (https_get w url = Responded response -> statusCode response = 200 ->
     exists s',
       downloadImage w url dest s = (Thrown err, s') /\
       files s' !! dest = left_behind w response dest s /\
       trace s' = trace s ++ [HttpsGet url; CreateWriteStream dest; Unlink dest]) /\
  (forall first location,
     https_get w url = Responded first -> statusCode first = 302 ->
     headers_location first = Some location -> location <> [] ->
     https_get w location = Responded response ->
     exists s',
       downloadImage w url dest s = (Thrown err, s') /\
       files s' !! dest = left_behind w response dest s /\
       trace s' = trace s ++ [HttpsGet url; HttpsGet location;
                              CreateWriteStream dest; Unlink dest]) /\
  (unlink_fails w dest = false -> left_behind w response dest s = None) /\
  (forall written e,
     unlink_fails w dest = true -> write_stream w dest = WriteError written e ->
     left_behind w response dest s = Some (take written (payload response))) /\
  (forall e,
     unlink_fails w dest = true -> write_stream w dest = OpenError e ->
     left_behind w response dest s = files s !! dest).
Proof.
  intros Herr. split; [|split; [|split; [|split; [|split]]]].
  - intros A resolve reject. by apply saveImageToFile_error.
  - intros Hget Hcode. rewrite downloadImage_eq, Hget, Hcode. cbn [N.eqb Pos.eqb andb].
    destruct (saveImageToFile_error w response dest (ret tt) throw
                (record_event (HttpsGet url) s) err Herr) as (s' & Hrun & Hfile & Htrace).
    exists s'. rewrite Hrun. split; [reflexivity|]. split; [exact Hfile|].
    rewrite Htrace. trace_solve.
  - intros first [|c l] Hget Hcode Hloc Hne Hnext; [done|].
    rewrite downloadImage_eq, Hget, Hcode, Hloc.
    cbn [N.eqb Pos.eqb andb truthy default from_option id]. cbv zeta. rewrite Hnext.
    destruct (saveImageToFile_error w response dest (ret tt) throw
                (record_event (HttpsGet (c :: l)) (record_event (HttpsGet url) s)) err Herr)
      as (s' & Hrun & Hfile & Htrace).
    exists s'. rewrite Hrun. split; [reflexivity|]. split; [exact Hfile|].
    rewrite Htrace. trace_solve.
  - unfold left_behind. by intros ->.
  - unfold left_behind. by intros written e -> ->.
  - unfold left_behind. by intros e -> ->.
Qed.

(** A disk that fills up after one byte, with a file that can be
    removed. *)
Lemma write_error_unlinks_before_reject_witness :
  exists s',
    downloadImage Scenario.disk_full imageUrl imageDest Scenario.fresh
    = (Thrown (Error (js "ENOSPC: no space left on device, write")), s') /\
    files s' !! imageDest = None /\
    trace s' = trace Scenario.fresh
                 ++ [HttpsGet imageUrl; CreateWriteStream imageDest; Unlink imageDest].
Proof.
  apply (proj1 (proj2 (write_error_unlinks_before_reject Scenario.disk_full imageUrl
                         imageDest Scenario.fresh Scenario.snapshot
                         (Error (js "ENOSPC: no space left on device, write")) eq_refl)));
    reflexivity.
Defined.

(** Against C4 as stated: the disk fills up after the first of the four
    bytes of the body and the unlink fails; the download is rejected
    with the error of the stream, after the unlink, and the partial
    file is still there. *)
Lemma failed_unlink_leaves_partial_file :
  fst (downloadImage Cases.stuck_file imageUrl imageDest Scenario.fresh)
  = Thrown (Error (js "ENOSPC: no space left on device, write")) /\
  trace (snd (downloadImage Cases.stuck_file imageUrl imageDest Scenario.fresh))
  = [HttpsGet imageUrl; CreateWriteStream imageDest; Unlink imageDest] /\
  files (snd (downloadImage Cases.stuck_file imageUrl imageDest Scenario.fresh)) !! imageDest
  = Some (Base64.bytes_of "b").
Proof. repeat split. Qed.

(** C5, against the code.  The guard of line 71 looks for the error
    object on the response itself: with a status other than ["200"], a
    response that has an [error] object with a [message] of its own
    makes [getImageDescription] throw an [Error] with exactly that
    message.  The client puts the error of the service in the body: for
    such a response (no [error] of its own, the error object with its
    message in a body without [choices]) the guard does not fire and
    the error thrown is ["Unexpected response format"]; the message of
    the service is lost. *)
Theorem service_error_message_is_lost w s imageBuffer response message :
  truthy (token w) = true ->
  files s !! imageDest = Some imageBuffer ->
  read_fails w (reads s) = false ->
  chat_completions w (chat_request (dataUrl (js "jpg") imageBuffer)) = inr response ->
  status response <> js "200" ->
  (error response = ErrorObject (Some message) ->
     getImageDescription w s = (Thrown (Error message), asked w imageBuffer s)) /\
  (error response = NoErrorProperty ->
   body response = BodyObject None (ErrorObject (Some message)) ->
     getImageDescription w s
     = (Thrown (Error (js "Unexpected response format")), asked w imageBuffer s)).
Proof.
  intros Htoken Hfile Hread Hresponse Hstatus.
  rewrite (getImageDescription_eq w s imageBuffer), Hresponse by done.
  unfold read_response, error_message. rewrite bool_decide_eq_false_2 by done.
  split.
  - by intros ->.
  - by intros -> ->.
Qed.

(** The service answers 429 with the message ["rate limited"] in the
    body. *)
Lemma service_error_message_is_lost_witness :
  getImageDescription Cases.service_error Scenario.stored
  = (Thrown (Error (js "Unexpected response format")),
     asked Cases.service_error (Base64.bytes_of "X") Scenario.stored).
Proof.
  refine (proj2 (service_error_message_is_lost Cases.service_error Scenario.stored
                   (Base64.bytes_of "X")
                   {| status := js "429"; error := NoErrorProperty;
                      body := BodyObject None (ErrorObject (Some (js "rate limited"))) |}
                   (js "rate limited") eq_refl eq_refl eq_refl eq_refl _)
            eq_refl eq_refl).
  cbn. discriminate.
Defined.

(** Against C5 as stated: the service answers 429 with the message
    ["rate limited"], which the client hands on in the body; the error
    thrown is the format error, and the run returns the description
    placeholder. *)
Lemma body_error_message_is_not_thrown :
  chat_completions Cases.service_error (chat_request (dataUrl (js "jpg") (Base64.bytes_of "X")))
  = inr {| status := js "429"; error := NoErrorProperty;
           body := BodyObject None (ErrorObject (Some (js "rate limited"))) |} /\
  fst (getImageDescription Cases.service_error Scenario.stored)
  = Thrown (Error (js "Unexpected response format")) /\
  fst (getPostText Cases.service_error Scenario.fresh)
  = Returned (js "Error getting image description.").
Proof. repeat split. Qed.

(** C6, against the code.  For a response on which the guard of line
    71 does not fire (status ["200"], or no [error] object with a
    [message]), by the shape of its body: when the first choice has
    non-empty content, that content is returned; when the body is an
    object without [choices], an [Error] with the message ["Unexpected
    response format"] is thrown; when the first choice has empty (or
    null) content, ["No description available."] is returned.  Two
    unrecognized shapes do not reach the format error: on an empty list
    of choices the read of [choices[0].message] throws a [TypeError],
    and on a body that is not an object the test ['choices' in body]
    does. *)
Theorem description_of_response w s imageBuffer response :
  truthy (token w) = true ->
  files s !! imageDest = Some imageBuffer ->
  read_fails w (reads s) = false ->
  chat_completions w (chat_request (dataUrl (js "jpg") imageBuffer)) = inr response ->
  status response = js "200" \/ (forall message, error response <> ErrorObject (Some message)) ->
  (forall choice rest body_error content,
     body response = BodyObject (Some (choice :: rest)) body_error ->
     message_content choice = Some content -> content <> [] ->
     getImageDescription w s = (Returned content, asked w imageBuffer s)) /\
  (forall body_error,
     body response = BodyObject None body_error ->
     getImageDescription w s
     = (Thrown (Error (js "Unexpected response format")), asked w imageBuffer s)) /\
  (forall choice rest body_error,
     body response = BodyObject (Some (choice :: rest)) body_error ->
     message_content choice = None \/ message_content choice = Some [] ->
     getImageDescription w s
     = (Returned (js "No description available."), asked w imageBuffer s)) /\
  (forall body_error,
     body response = BodyObject (Some []) body_error ->
     getImageDescription w s
     = (Thrown (TypeError (js "Cannot read properties of undefined (reading 'message')")),
        asked w imageBuffer s)) /\
  (forall shown,
     body response = NotAnObject shown ->
     getImageDescription w s
     = (Thrown (TypeError (js "Cannot use 'in' operator to search for 'choices' in "
                             ++ shown)),
        asked w imageBuffer s)).
Proof.
  intros Htoken Hfile Hread Hresponse Hguard.
  rewrite (getImageDescription_eq w s imageBuffer), Hresponse by done.
  assert (Hnone : error_message response = None).
  { unfold error_message. destruct Hguard as [-> | Hno].
    - by rewrite bool_decide_eq_true_2.
    - destruct (bool_decide _); [done|].
      destruct (error response) as [| | |[m|]] eqn:He; try done. by destruct (Hno m). }
  unfold read_response. rewrite Hnone. split; [|split; [|split; [|split]]].
  - intros choice rest body_error [|c content] -> Hcontent Hne; [done|]. by rewrite Hcontent.
  - by intros body_error ->.
  - intros choice rest body_error -> [-> | ->]; reflexivity.
  - by intros body_error ->.
  - by intros shown ->.
Qed.

(** A caption, a body without choices, an empty caption, an empty
    list of choices and a body of plain text. *)
Lemma description_of_response_witness :
  getImageDescription Scenario.sunny Scenario.stored
  = (Returned (js "A cat on a bridge."),
     asked Scenario.sunny (Base64.bytes_of "X") Scenario.stored) /\
  getImageDescription Scenario.malformed Scenario.stored
  = (Thrown (Error (js "Unexpected response format")),
     asked Scenario.malformed (Base64.bytes_of "X") Scenario.stored) /\
  getImageDescription Scenario.speechless Scenario.stored
  = (Returned (js "No description available."),
     asked Scenario.speechless (Base64.bytes_of "X") Scenario.stored) /\
  getImageDescription Cases.choiceless Scenario.stored
  = (Thrown (TypeError (js "Cannot read properties of undefined (reading 'message')")),
     asked Cases.choiceless (Base64.bytes_of "X") Scenario.stored) /\
  getImageDescription Cases.text_body Scenario.stored
  = (Thrown (TypeError (js "Cannot use 'in' operator to search for 'choices' in Bad Gateway")),
     asked Cases.text_body (Base64.bytes_of "X") Scenario.stored).
Proof.
  split; [|split; [|split; [|split]]].
  - refine (proj1 (description_of_response Scenario.sunny Scenario.stored
                     (Base64.bytes_of "X") (Scenario.caption (Some (js "A cat on a bridge.")))
                     eq_refl eq_refl eq_refl eq_refl (or_introl eq_refl))
              {| message_content := Some (js "A cat on a bridge.") |} [] NoErrorProperty
              (js "A cat on a bridge.") eq_refl eq_refl _).
    discriminate.
  - refine (proj1 (proj2 (description_of_response Scenario.malformed Scenario.stored
                            (Base64.bytes_of "X")
                            {| status := js "200"; error := NoErrorProperty;
                               body := BodyObject None NoErrorProperty |}
                            eq_refl eq_refl eq_refl eq_refl (or_introl eq_refl)))
              NoErrorProperty eq_refl).
  - refine (proj1 (proj2 (proj2 (description_of_response Scenario.speechless Scenario.stored
                            (Base64.bytes_of "X") (Scenario.caption (Some []))
                            eq_refl eq_refl eq_refl eq_refl (or_introl eq_refl))))
              {| message_content := Some [] |} [] NoErrorProperty eq_refl (or_intror eq_refl)).
  - refine (proj1 (proj2 (proj2 (proj2 (description_of_response Cases.choiceless
                            Scenario.stored (Base64.bytes_of "X")
                            {| status := js "200"; error := NoErrorProperty;
                               body := BodyObject (Some []) NoErrorProperty |}
                            eq_refl eq_refl eq_refl eq_refl (or_introl eq_refl)))))
              NoErrorProperty eq_refl).
  - refine (proj2 (proj2 (proj2 (proj2 (description_of_response Cases.text_body
                            Scenario.stored (Base64.bytes_of "X")
                            {| status := js "200"; error := NoErrorProperty;
                               body := NotAnObject (js "Bad Gateway") |}
                            eq_refl eq_refl eq_refl eq_refl (or_introl eq_refl)))))
              (js "Bad Gateway") eq_refl).
Defined.

(** Against C6 as stated: a body with [choices: []] and a body of plain
    text are unrecognized shapes, and neither fails with the format
    error. *)
Lemma odd_shapes_miss_the_format_error :
  fst (getImageDescription Cases.choiceless Scenario.stored)
  = Thrown (TypeError (js "Cannot read properties of undefined (reading 'message')")) /\
  fst (getImageDescription Cases.text_body Scenario.stored)
  = Thrown (TypeError (js "Cannot use 'in' operator to search for 'choices' in Bad Gateway")).
Proof. repeat split. Qed.

(** C7.  In a run in which the download, the description, the login,
    the read of the image, the upload and the creation of the post all
    succeed, and [D] is the description after the cap, [getPostText]
    creates exactly one post: its text is [D], it embeds exactly one
    image, whose alt text is [D], whose blob is the uploaded one and
    whose aspect ratio is 1000 by 500, and its creation time is the
    reading of the clock in ISO 8601 form. *)
Theorem created_post_carries_description
    w s s1 s2 imageDescription imageBuffer blob :
  truthy (bskyHandle w) = true -> truthy (bskyPassword w) = true ->
  step1 w (prepared s) = (Returned (Continue tt), s1) ->
  step2 w s1 = (Returned (Continue imageDescription), s2) ->
  agent_login w (default [] (bskyHandle w)) (default [] (bskyPassword w)) = None ->
  files s2 !! imageDest = Some imageBuffer ->
  read_fails w (reads s2) = false ->
  agent_uploadBlob w imageBuffer (js "image/jpeg") = inr blob ->
  let D := truncate imageDescription in
  let now := Date.toISOString (clock w (ticks s2)) in
  agent_post w (post_record D blob now) = None ->
  exists s',
    getPostText w s
    = (Returned (D ++ [10] ++ js "![Image](" ++ imageUrl ++ js ")"), s') /\
    posts (trace s') = posts (trace s) ++ [post_record D blob now] /\
    text (post_record D blob now) = D /\
    images (embed (post_record D blob now))
    = [ {| alt := D; image := blob;
           aspectRatio := {| width := 1000; height := 500 |} |} ] /\
    createdAt (post_record D blob now) = now.
Proof.
  intros Hhandle Hpassword Hstep1 Hstep2 Hlogin Hfile Hread Hupload D now Hpost.
  rewrite getPostText_eq, Hhandle, Hpassword, Hstep1, Hstep2. cbn [negb orb].
  rewrite (publish_eq w _ s2 imageBuffer), Hupload by done. cbv zeta.
  fold D now. rewrite Hpost. eexists. split; [reflexivity|].
  split; [|done].
  destruct (emits_only_step1 w (prepared s)) as (ev1 & Ht1 & Hp1).
  destruct (emits_only_step2 w s1) as (ev2 & Ht2 & Hp2).
  rewrite Hstep1 in Ht1. rewrite Hstep2 in Ht2. cbn [snd] in Ht1, Ht2.
  destruct (no_publication_quiet _ Hp1) as [Hq1 _].
  destruct (no_publication_quiet _ Hp2) as [Hq2 _].
  run_simpl. rewrite Ht2, Ht1, !posts_app, Hq1, Hq2, !app_nil_r.
  destruct (prepared_trace s) as [-> | ->]; rewrite ?posts_app; cbn; by rewrite ?app_nil_r.
Qed.

(** The run in which everything succeeds. *)
Lemma created_post_carries_description_witness :
  exists s',
    getPostText Scenario.sunny Scenario.fresh
    = (Returned (js "A cat on a bridge." ++ [10] ++ js "![Image](" ++ imageUrl ++ js ")"), s') /\
    posts (trace s')
    = [ post_record (js "A cat on a bridge.") (Blob (js "bafkreiblob"))
          (js "2023-11-14T22:13:20.000Z") ].
Proof.
  destruct (created_post_carries_description Scenario.sunny Scenario.fresh
              (snd (step1 Scenario.sunny (prepared Scenario.fresh)))
              (snd (step2 Scenario.sunny (snd (step1 Scenario.sunny (prepared Scenario.fresh)))))
              (js "A cat on a bridge.") (Base64.bytes_of "X") (Blob (js "bafkreiblob"))
              eq_refl eq_refl eq_refl eq_refl eq_refl eq_refl eq_refl eq_refl eq_refl)
    as (s' & Hrun & Hposts & _).
  exists s'. split; [exact Hrun | exact Hposts].
Defined.



(** C9, as the code has it.  When the posting-service identifier or
    secret is absent (or empty), [getPostText] throws the configuration
    error right after the folder check and before anything else: the
    only event it may have added is the creation of the folder, so no
    image is requested and no description is asked for.  [main] hands
    the error to [console.error] and ends normally. *)
Theorem missing_credentials_throw_first w s :
  truthy (bskyHandle w) = false \/ truthy (bskyPassword w) = false ->
  getPostText w s
  = (Thrown (Error (js "Bluesky handle or password is not defined")), prepared s) /\
  (trace (prepared s) = trace s \/ trace (prepared s) = trace s ++ [Mkdir todayFolder]) /\
  main w s
  = (Returned tt,
     record_event
       (ConsoleErrorValue (js "Error posting to Bluesky:")
          (Error (js "Bluesky handle or password is not defined")))
       (prepared s)).
Proof.
  intros Hmissing.
  assert (Hrun : getPostText w s
                 = (Thrown (Error (js "Bluesky handle or password is not defined")), prepared s)).
  { rewrite getPostText_eq. by destruct Hmissing as [-> | ->]; rewrite ?orb_true_r. }
  split; [exact Hrun|]. split; [apply prepared_trace|].
  unfold main. erewrite try_catch_thrown by (by apply bind_thrown). reflexivity.
Qed.

(** An environment without [BSKY_HANDLE]. *)
Lemma missing_credentials_throw_first_witness :
  getPostText Scenario.no_handle Scenario.fresh
  = (Thrown (Error (js "Bluesky handle or password is not defined")),
     prepared Scenario.fresh).
Proof.
  apply (missing_credentials_throw_first Scenario.no_handle Scenario.fresh).
  left. reflexivity.
Defined.

(** Against C9 as stated: without the identifier the run fails before
    any request for the image or for a description, although both
    would succeed. *)
Lemma missing_handle_fails_before_download :
  truthy (token Scenario.no_handle) = true /\
  fst (downloadImage Scenario.no_handle imageUrl imageDest (prepared Scenario.fresh))
  = Returned tt /\
  fst (getPostText Scenario.no_handle Scenario.fresh)
  = Thrown (Error (js "Bluesky handle or password is not defined")) /\
  trace (snd (getPostText Scenario.no_handle Scenario.fresh)) = [Mkdir todayFolder] /\
  existsb is_acquisition_or_description
    (trace (snd (getPostText Scenario.no_handle Scenario.fresh))) = false.
Proof. repeat split. Qed.

(** C10.  For every byte sequence [B]: the data URI built from [B] as
    [getImageDataUrl] builds it decodes, by
    [convertDataURIToUint8Array], to exactly [B]; so when [B] is the
    content of the image file, reading the file into a data URI and
    decoding it gives [B], and the blob that [publish] uploads is
    [B]. *)
Theorem uploaded_bytes_are_file_bytes (B : list byte) :
  (forall s0,
     convertDataURIToUint8Array (dataUrl (js "jpg") B) s0 = (Returned B, s0)) /\
  (forall w s,
     files s !! imageDest = Some B ->
     read_fails w (reads s) = false ->
     (imageDataUrl <- getImageDataUrl w imageDest (js "jpg");;
      convertDataURIToUint8Array imageDataUrl) s
     = (Returned B, count_read (record_event (ReadFile imageDest) s))) /\
  (forall w s imageDescription,
     files s !! imageDest = Some B ->
     read_fails w (reads s) = false ->
     agent_login w (default [] (bskyHandle w)) (default [] (bskyPassword w)) = None ->
     uploads (trace (snd (publish w imageDescription s))) = uploads (trace s) ++ [B]).
Proof.
  split; [|split].
  - intros s0. apply DataUriFacts.convert_dataUrl, no_comma_in_jpg.
  - intros w s Hfile Hread.
    erewrite bind_returned by (by apply getImageDataUrl_read).
    apply DataUriFacts.convert_dataUrl, no_comma_in_jpg.
  - intros w s imageDescription Hfile Hread Hlogin.
    rewrite (publish_eq w _ s B) by done. cbv zeta.
    destruct (agent_uploadBlob w B _) as [err|blob]; [|destruct (agent_post w _)];
      run_simpl; rewrite !uploads_app; cbn; by rewrite !app_nil_r.
Qed.

(** The stored snapshot ["X"], and four bytes that need padding. *)
Lemma uploaded_bytes_are_file_bytes_witness :
  uploads (trace (snd (publish Scenario.sunny (js "A cat on a bridge.") Scenario.stored)))
  = [Base64.bytes_of "X"] /\
  convertDataURIToUint8Array (js "data:image/jpg;base64,//79/A==") Scenario.fresh
  = (Returned [xff; xfe; xfd; xfc], Scenario.fresh).
Proof.
  split.
  - apply (proj2 (proj2 (uploaded_bytes_are_file_bytes (Base64.bytes_of "X")))
             Scenario.sunny Scenario.stored (js "A cat on a bridge.")); reflexivity.
  - apply (proj1 (uploaded_bytes_are_file_bytes [xff; xfe; xfd; xfc]) Scenario.fresh).
Defined.

(** * Further properties *)

(** ** The cap *)

Lemma truncate_long (s : list N) :
  (300 < length s)%nat -> truncate s = take 300 s ++ js "...".
Proof.
  intros Hlen. unfold truncate, maxGraphemes, slice0.
  by rewrite (proj2 (Nat.ltb_lt _ _)).
Qed.

Lemma truncate_short_id (s : list N) : (length s <= 300)%nat -> truncate s = s.
Proof.
  intros Hlen. unfold truncate, maxGraphemes.
  by rewrite (proj2 (Nat.ltb_ge _ _)).
Qed.

Lemma truncate_length_le (s : list N) : (length (truncate s) <= 303)%nat.
Proof.
  destruct (Nat.le_gt_cases (length s) 300) as [Hle | Hgt].
  - rewrite truncate_short_id by done. lia.
  - rewrite truncate_long by done. rewrite length_app, length_take.
    change (length (js "...")) with 3%nat. lia.
Qed.

(** X1.  The capped description never has more than 303 code units; it
    has more than 300 exactly when the input had; and capping twice is
    capping once. *)
Theorem truncate_bounded_idempotent (s : list N) :
  (length (truncate s) <= 303)%nat /\
  ((300 < length (truncate s))%nat <-> (300 < length s)%nat) /\
  truncate (truncate s) = truncate s.
Proof.
  split; [apply truncate_length_le|].
  destruct (Nat.le_gt_cases (length s) 300) as [Hle | Hgt].
  - rewrite !truncate_short_id by (rewrite ?truncate_short_id; done). tauto.
  - assert (Hlen : length (take 300 s ++ js "...") = 303%nat).
    { rewrite length_app, length_take.
    change (length (js "...")) with 3%nat. lia. }
    rewrite (truncate_long s) by done. split; [rewrite Hlen; lia|].
    rewrite truncate_long by (rewrite Hlen; lia).
    rewrite take_app_le by (rewrite length_take; lia).
    by rewrite take_take.
Qed.

(** X2.  The cap cuts between code units, whatever they are: of a
    string of more than 300 units the first 300 are kept as they are
    and unit 300 is a full stop.  So when unit 299 is the high half of a
    surrogate pair, the result holds that half without its low half. *)
Theorem truncate_cuts_code_units (s : list N) (c : N) :
  (300 < length s)%nat ->
  s !! 299%nat = Some c ->
  is_high_surrogate c = true ->
  (forall i, (i < 300)%nat -> truncate s !! i = s !! i) /\
  truncate s !! 299%nat = Some c /\
  truncate s !! 300%nat = Some 46 /\
  (forall d, truncate s !! 300%nat = Some d -> is_low_surrogate d = false).
Proof.
  intros Hlen Hc Hhigh. rewrite truncate_long by done.
  assert (Hkeep : forall i, (i < 300)%nat -> (take 300 s ++ js "...") !! i = s !! i).
  { intros i Hi. rewrite lookup_app_l by (rewrite length_take; lia).
    by apply lookup_take_lt. }
  assert (Hdot : (take 300 s ++ js "...") !! 300%nat = Some 46).
  { rewrite lookup_app_r by (rewrite length_take; lia).
    rewrite length_take. by replace (300 - 300 `min` length s)%nat with 0%nat by lia. }
  split; [exact Hkeep|]. split; [by rewrite Hkeep by lia|]. split; [exact Hdot|].
  intros d. rewrite Hdot. by intros [= <-].
Qed.

(** A description whose units 299 and 300 are the halves of an emoji. *)
Lemma truncate_cuts_code_units_witness :
  truncate Cases.long_description !! 299%nat = Some 55357 /\
  truncate Cases.long_description !! 300%nat = Some 46.
Proof.
  destruct (truncate_cuts_code_units Cases.long_description 55357) as (_ & H299 & H300 & _);
    [cbn; lia | reflexivity | reflexivity |].
  split; [exact H299 | exact H300].
Defined.

(** ** Data URIs without a payload *)

(** X3.  A text without a comma is not a data URI for
    [convertDataURIToUint8Array]: [split(',')[1]] is [undefined], [atob]
    is given the text ["undefined"] and throws.  A text that ends right
    after its only comma decodes to the empty array. *)
Theorem data_uri_needs_a_comma (dataURI : list N) (s : State) :
  44 ∉ dataURI ->
  convertDataURIToUint8Array dataURI s
  = (Thrown (DOMException (js "InvalidCharacterError")), s) /\
  convertDataURIToUint8Array (dataURI ++ js ",") s = (Returned [], s).
Proof.
  intros Hno. unfold convertDataURIToUint8Array. split.
  - by rewrite DataUriFacts.split_no_sep.
  - change (dataURI ++ js ",") with (dataURI ++ 44 :: []).
    by rewrite DataUriFacts.split_app.
Qed.

(** A path in place of a data URI. *)
Lemma data_uri_needs_a_comma_witness :
  convertDataURIToUint8Array (js "today/todays_image.jpg") Scenario.fresh
  = (Thrown (DOMException (js "InvalidCharacterError")), Scenario.fresh).
Proof.
  apply (data_uri_needs_a_comma (js "today/todays_image.jpg") Scenario.fresh).
  intros Hin. apply list_elem_of_In in Hin. cbn in Hin.
  repeat (destruct Hin as [Hin|Hin]; [discriminate|]). done.
Defined.

(** X4.  Only the text between the first and the second comma is
    decoded: whatever follows a second comma is ignored. *)
Theorem data_uri_second_segment_only (header payload rest : list N) (s : State) :
  44 ∉ header -> 44 ∉ payload ->
  convertDataURIToUint8Array (header ++ js "," ++ payload ++ js "," ++ rest) s
  = convertDataURIToUint8Array (header ++ js "," ++ payload) s.
Proof.
  intros Hh Hp. unfold convertDataURIToUint8Array.
  change (header ++ js "," ++ payload ++ js "," ++ rest)
    with (header ++ 44 :: (payload ++ 44 :: rest)).
  change (header ++ js "," ++ payload) with (header ++ 44 :: payload).
  rewrite (DataUriFacts.split_app 44 header (payload ++ 44 :: rest)) by done.
  rewrite (DataUriFacts.split_app 44 payload rest) by done.
  rewrite (DataUriFacts.split_app 44 header payload) by done.
  rewrite (DataUriFacts.split_no_sep 44 payload) by done. reflexivity.
Qed.

(** A data URI with a second comma. *)
Lemma data_uri_second_segment_only_witness :
  convertDataURIToUint8Array (js "data:image/jpg;base64,WA==,TWFu") Scenario.fresh
  = (Returned (Base64.bytes_of "X"), Scenario.fresh).
Proof.
  refine (eq_trans (data_uri_second_segment_only (js "data:image/jpg;base64") (js "WA==")
                      (js "TWFu") Scenario.fresh _ _) _).
  - intros Hin. apply list_elem_of_In in Hin. cbn in Hin.
    repeat (destruct Hin as [Hin|Hin]; [discriminate|]). done.
  - intros Hin. apply list_elem_of_In in Hin. cbn in Hin.
    repeat (destruct Hin as [Hin|Hin]; [discriminate|]). done.
  - reflexivity.
Defined.

(** ** The folder check *)

(** X5.  The folder check calls [mkdirSync] exactly when neither a
    directory nor a file named ['today'] is there.  When a directory of
    that name exists the check does nothing; when a regular file of that
    name exists it does nothing either, so no folder is made and
    ['today'] is still not a directory afterwards. *)
Theorem folder_check_settles (s : State) :
  (todayFolder ∈ dirs s \/ is_Some (files s !! todayFolder) ->
     ensureTodayFolder s = (Returned tt, s)) /\
  (todayFolder ∉ dirs s -> is_Some (files s !! todayFolder) ->
     (todayFolder ∉ dirs (snd (ensureTodayFolder s))) /\
     trace (snd (ensureTodayFolder s)) = trace s) /\
  (todayFolder ∉ dirs s -> files s !! todayFolder = None ->
     trace (snd (ensureTodayFolder s)) = trace s ++ [Mkdir todayFolder] /\
     files (snd (ensureTodayFolder s)) = files s).
Proof.
  assert (Hpresent : todayFolder ∈ dirs s \/ is_Some (files s !! todayFolder) ->
                     ensureTodayFolder s = (Returned tt, s)).
  { intros Hhere. rewrite ensureTodayFolder_eq. unfold prepared.
    destruct Hhere as [Hdir | Hfile].
    - by rewrite bool_decide_eq_true_2.
    - by rewrite (bool_decide_eq_true_2 (is_Some _)), orb_true_r. }
  split; [exact Hpresent|]. split.
  - intros Hnotin Hfile. by rewrite Hpresent by (by right).
  - intros Hnotin Hnofile. rewrite ensureTodayFolder_eq. unfold prepared.
    rewrite bool_decide_eq_false_2 by done.
    rewrite bool_decide_eq_false_2; [done|]. rewrite Hnofile. by intros [? [=]].
Qed.

(** ** The inference key and odd answers *)

(** X6.  Without an inference key [getImageDescription] throws before
    it reads the image or sends anything; in [getPostText] this happens
    only after the image has been downloaded, and the run returns the
    description placeholder without a call to the inference service. *)
Theorem missing_token_fails_after_download w s s1 :
  truthy (token w) = false ->
  truthy (bskyHandle w) = true -> truthy (bskyPassword w) = true ->
  step1 w (prepared s) = (Returned (Continue tt), s1) ->
  getImageDescription w s1 = (Thrown (Error (js "Azure API token is not defined")), s1) /\
  getPostText w s
  = (Returned (js "Error getting image description."),
     record_event (ConsoleError (js "Error getting image description.")) s1).
Proof.
  intros Htoken Hhandle Hpassword Hstep1.
  assert (Hdesc : getImageDescription w s1
                  = (Thrown (Error (js "Azure API token is not defined")), s1)).
  { unfold getImageDescription. by rewrite Htoken. }
  split; [exact Hdesc|].
  rewrite getPostText_eq, Hhandle, Hpassword, Hstep1, step2_eq, Hdesc. reflexivity.
Qed.

(** An environment without [KEY_GITHUB_TOKEN]. *)
Lemma missing_token_fails_after_download_witness :
  trace (snd (getPostText Cases.no_token Scenario.fresh))
  = [Mkdir todayFolder; HttpsGet imageUrl; CreateWriteStream imageDest;
     ConsoleLog (js "Image downloaded to: today/todays_image.jpg");
     ConsoleError (js "Error getting image description.")].
Proof.
  rewrite (proj2 (missing_token_fails_after_download Cases.no_token Scenario.fresh
                    (snd (step1 Cases.no_token (prepared Scenario.fresh)))
                    eq_refl eq_refl eq_refl eq_refl)).
  reflexivity.
Defined.

(** X7.  An answer whose [choices] is an empty array makes
    [getImageDescription] throw a [TypeError] ([choices[0]] is
    [undefined]); [step2] catches it like any other failure and the run
    returns the description placeholder. *)
Theorem empty_choices_throw w s imageBuffer response :
  truthy (token w) = true ->
  files s !! imageDest = Some imageBuffer ->
  read_fails w (reads s) = false ->
  chat_completions w (chat_request (dataUrl (js "jpg") imageBuffer)) = inr response ->
  status response = js "200" \/ (forall message, error response <> ErrorObject (Some message)) ->
  body_choices response = Some [] ->
  getImageDescription w s
  = (Thrown (TypeError (js "Cannot read properties of undefined (reading 'message')")),
     asked w imageBuffer s) /\
  step2 w s
  = (Returned (Return (js "Error getting image description.")),
     record_event (ConsoleError (js "Error getting image description."))
       (asked w imageBuffer s)).
Proof.
  intros Htoken Hfile Hread Hresponse Hguard Hchoices.
  assert (Hdesc : getImageDescription w s
                  = (Thrown (TypeError (js "Cannot read properties of undefined (reading 'message')")),
                     asked w imageBuffer s)).
  { rewrite (getImageDescription_eq w s imageBuffer), Hresponse by done.
    assert (Hnone : error_message response = None).
    { unfold error_message. destruct Hguard as [-> | Hno].
      - by rewrite bool_decide_eq_true_2.
      - destruct (bool_decide _); [done|].
        destruct (error response) as [| | |[m|]] eqn:He; try done. by destruct (Hno m). }
    unfold read_response. rewrite Hnone. unfold body_choices in Hchoices.
    destruct (body response) as [shown|[choices|] body_error]; [done| |done].
    by injection Hchoices as ->. }
  split; [exact Hdesc|]. by rewrite step2_eq, Hdesc.
Qed.

(** An answer with [choices: []]. *)
Lemma empty_choices_throw_witness :
  fst (step2 Cases.choiceless Scenario.stored)
  = Returned (Return (js "Error getting image description.")).
Proof.
  rewrite (proj2 (empty_choices_throw Cases.choiceless Scenario.stored (Base64.bytes_of "X")
                    {| status := js "200"; error := NoErrorProperty;
                       body := BodyObject (Some []) NoErrorProperty |}
                    eq_refl eq_refl eq_refl eq_refl (or_introl eq_refl) eq_refl)).
  reflexivity.
Defined.

Lemma getImageDescription_nonempty w s description s' :
  getImageDescription w s = (Returned description, s') -> description <> [].
Proof.
  unfold getImageDescription.
  destruct (truthy (token w)); [|done]. cbn [negb]. unfold bind at 1.
  destruct (getImageDataUrl w _ _ s) as [[imageDataUrl|e|code] s1]; [|done..].
  unfold bind, emit.
  destruct (chat_completions w _) as [err|response]; [done|].
  unfold read_response.
  destruct (error_message response); [done|].
  destruct (body response) as [shown|[[|choice rest]|] body_error]; [done|done| |done].
  destruct (message_content choice) as [[|c content]|]; cbn [truthy default from_option id];
    by intros [= <- <-].
Qed.

(** X8.  [getImageDescription] never returns the empty string: it
    returns either non-empty content or the fixed fallback.  So the
    [|| "No description available."] of [getPostText] never replaces
    anything: the description that [step2] passes on is the one that
    [getImageDescription] returned. *)
Theorem description_is_never_empty w s :
  (forall description s',
     getImageDescription w s = (Returned description, s') -> description <> []) /\
  (forall imageDescription s',
     step2 w s = (Returned (Continue imageDescription), s') ->
     imageDescription <> [] /\
     exists s1, getImageDescription w s = (Returned imageDescription, s1)).
Proof.
  split; [apply getImageDescription_nonempty|].
  intros imageDescription s'. rewrite step2_eq.
  destruct (getImageDescription w s) as [[description|e|code] s1] eqn:Hrun; [|done..].
  cbv zeta. intros [= <- <-].
  pose proof (getImageDescription_nonempty w s description s1 Hrun) as Hd.
  destruct description as [|c description]; [done|]. cbn [or_else].
  split; [done|]. by exists s1.
Qed.

(** ** What [main] reports *)

Lemma main_returned w s text s1 :
  getPostText w s = (Returned text, s1) ->
  main w s
  = (Returned tt,
     record_event
       (ConsoleLog (js "[" ++ Date.toISOString (clock w (ticks s1)) ++ js "] Posted: "
                      ++ [34] ++ text ++ [34]))
       (count_tick s1)).
Proof.
  intros Hrun. unfold main, try_catch. erewrite bind_returned by exact Hrun.
  reflexivity.
Qed.

(** X9.  [main] logs whatever [getPostText] returns as posted.  A run
    whose download failed, or whose description failed, therefore ends
    with the error line followed by a line [Posted: "..."] that quotes
    the placeholder, although nothing was posted. *)
Theorem placeholder_is_reported_as_posted w s :
  truthy (bskyHandle w) = true -> truthy (bskyPassword w) = true ->
  (forall e s1,
     downloadImage w imageUrl imageDest (prepared s) = (Thrown e, s1) ->
     main w s
     = (Returned tt,
        record_event
          (ConsoleLog (js "[" ++ Date.toISOString (clock w (ticks s1)) ++ js "] Posted: "
                         ++ [34] ++ js "Error downloading the image." ++ [34]))
          (count_tick
             (record_event (ConsoleError (js "Error downloading the image.")) s1)))) /\
  (forall s1 e s2,
     step1 w (prepared s) = (Returned (Continue tt), s1) ->
     getImageDescription w s1 = (Thrown e, s2) ->
     main w s
     = (Returned tt,
        record_event
          (ConsoleLog (js "[" ++ Date.toISOString (clock w (ticks s2)) ++ js "] Posted: "
                         ++ [34] ++ js "Error getting image description." ++ [34]))
          (count_tick
             (record_event (ConsoleError (js "Error getting image description.")) s2)))).
Proof.
  intros Hhandle Hpassword.
  assert (Heq := getPostText_eq w s). rewrite Hhandle, Hpassword in Heq. cbn [negb orb] in Heq.
  split.
  - intros e s1 Hdl.
    rewrite (main_returned w s (js "Error downloading the image.")
               (record_event (ConsoleError (js "Error downloading the image.")) s1));
      [reflexivity|].
    rewrite Heq, step1_eq, Hdl. reflexivity.
  - intros s1 e s2 Hstep1 Hdesc.
    rewrite (main_returned w s (js "Error getting image description.")
               (record_event (ConsoleError (js "Error getting image description.")) s2));
      [reflexivity|].
    rewrite Heq, Hstep1, step2_eq, Hdesc. reflexivity.
Qed.

(** A camera that answers 404. *)
Lemma placeholder_is_reported_as_posted_witness :
  trace (snd (main (Scenario.answering 404) Scenario.fresh))
  = [Mkdir todayFolder; HttpsGet imageUrl;
     ConsoleError (js "Error downloading the image.");
     ConsoleLog (js "[2023-11-14T22:13:20.000Z] Posted: " ++ [34]
                   ++ js "Error downloading the image." ++ [34])].
Proof.
  rewrite (proj1 (placeholder_is_reported_as_posted (Scenario.answering 404) Scenario.fresh
                    eq_refl eq_refl)
             (Error (js "Failed to download image. Status Code: 404"))
             (record_event (HttpsGet imageUrl) (prepared Scenario.fresh)) eq_refl).
  reflexivity.
Defined.

(** ** Failures of the posting service *)

(** X10.  A refused login, a refused upload and a refused post are each
    thrown on by [publish] at once: after a refused login nothing is
    read or uploaded, after a refused upload no post is attempted, and
    a refused post has been attempted once. *)
Theorem publication_failures_propagate w imageDescription s :
  let identifier := default [] (bskyHandle w) in
  let password := default [] (bskyPassword w) in
  (forall err,
     agent_login w identifier password = Some err ->
     publish w imageDescription s = (Thrown err, record_event (Login identifier password) s)) /\
  (forall imageBuffer err,
     agent_login w identifier password = None ->
     files s !! imageDest = Some imageBuffer -> read_fails w (reads s) = false ->
     agent_uploadBlob w imageBuffer (js "image/jpeg") = inl err ->
     fst (publish w imageDescription s) = Thrown err /\
     trace (snd (publish w imageDescription s))
     = trace s ++ [Login identifier password; ReadFile imageDest;
                   UploadBlob imageBuffer (js "image/jpeg")]) /\
  (forall imageBuffer blob err,
     agent_login w identifier password = None ->
     files s !! imageDest = Some imageBuffer -> read_fails w (reads s) = false ->
     agent_uploadBlob w imageBuffer (js "image/jpeg") = inr blob ->
     agent_post w (post_record imageDescription blob (Date.toISOString (clock w (ticks s))))
     = Some err ->
     fst (publish w imageDescription s) = Thrown err /\
     posts (trace (snd (publish w imageDescription s)))
     = posts (trace s)
         ++ [post_record imageDescription blob (Date.toISOString (clock w (ticks s)))]).
Proof.
  intros identifier password. split; [|split].
  - intros err Hlogin. unfold publish, agent_login_call, bind, emit.
    fold identifier password. by rewrite Hlogin.
  - intros imageBuffer err Hlogin Hfile Hread Hupload.
    rewrite (publish_eq w _ s imageBuffer), Hupload by done. cbv zeta.
    split; [reflexivity|]. trace_solve.
  - intros imageBuffer blob err Hlogin Hfile Hread Hupload Hpost.
    rewrite (publish_eq w _ s imageBuffer), Hupload by done. cbv zeta.
    rewrite Hpost. split; [reflexivity|].
    run_simpl. rewrite !posts_app. cbn. by rewrite !app_nil_r.
Qed.

(** A refused login and a refused upload. *)
Lemma publication_failures_propagate_witness :
  publish Cases.refusing_login (js "A cat on a bridge.") Scenario.stored
  = (Thrown (Error (js "Invalid identifier or password")),
     record_event (Login (js "bot.bsky.social") (js "app-password")) Scenario.stored) /\
  fst (publish Cases.refusing_upload (js "A cat on a bridge.") Scenario.stored)
  = Thrown (Error (js "BlobTooLarge")).
Proof.
  split.
  - apply (proj1 (publication_failures_propagate Cases.refusing_login
                    (js "A cat on a bridge.") Scenario.stored)).
    reflexivity.
  - apply (proj1 (proj2 (publication_failures_propagate Cases.refusing_upload
                           (js "A cat on a bridge.") Scenario.stored))
             (Base64.bytes_of "X")); reflexivity.
Defined.

(** ** What a run leaves as it was *)

#[export] Instance same_files_stable : Stable same_files.
Proof.
  split; unfold same_files.
  - done.
  - intros s1 s2 s3 [Hf1 Hd1] [Hf2 Hd2]. by rewrite Hf2, Hd2.
  - done.
  - done.
  - done.
Qed.

Lemma same_files_changed_only dest s s' : same_files s s' -> changed_only dest s s'.
Proof.
  intros [Hf Hd]. unfold changed_only. rewrite Hf, Hd.
  split; [done|]. split; [done | apply union_subseteq_r].
Qed.

#[export] Instance changed_only_stable dest : Stable (changed_only dest).
Proof.
  split.
  - intros s. by apply same_files_changed_only.
  - intros s1 s2 s3 (Hf1 & Hd1 & He1) (Hf2 & Hd2 & He2). split; [|split].
    + intros path Hpath. by rewrite Hf2, Hf1.
    + by etrans.
    + etrans; [exact He2|]. apply union_least; [apply union_subseteq_l | exact He1].
  - intros e s. by apply same_files_changed_only.
  - intros s. by apply same_files_changed_only.
  - intros s. by apply same_files_changed_only.
Qed.

Lemma preserves_ret (R : State -> State -> Prop) `{!Stable R}
    {A} (a : A) : preserves R (ret a).
Proof. intros s. apply stable_refl. Qed.

Lemma preserves_throw (R : State -> State -> Prop) `{!Stable R}
    {A} e : preserves R (throw (A := A) e).
Proof. intros s. apply stable_refl. Qed.

Lemma preserves_emit (R : State -> State -> Prop) `{!Stable R}
    e : preserves R (emit e).
Proof. intros s. apply stable_event. Qed.

Lemma preserves_exit (R : State -> State -> Prop) `{!Stable R}
    {A} code : preserves R (process_exit (A := A) code).
Proof. intros s. apply stable_event. Qed.

Lemma preserves_now (R : State -> State -> Prop) `{!Stable R}
    w : preserves R (now_iso w).
Proof. intros s. apply stable_tick. Qed.

Lemma preserves_existsSync (R : State -> State -> Prop) `{!Stable R}
    path : preserves R (existsSync path).
Proof. intros s. apply stable_refl. Qed.

Lemma preserves_readFileSync (R : State -> State -> Prop) `{!Stable R}
    w path : preserves R (readFileSync w path).
Proof.
  intros s. unfold readFileSync.
  assert (R s (count_read (record_event (ReadFile path) s))).
  { eapply stable_trans; [apply stable_event | apply stable_read]. }
  by repeat case_match.
Qed.

Lemma preserves_bind (R : State -> State -> Prop) `{!Stable R}
    {A B} (m : M A) (k : A -> M B) :
  preserves R m -> (forall a, preserves R (k a)) -> preserves R (x <- m;; k x).
Proof.
  intros Hm Hk s. specialize (Hm s). unfold bind.
  destruct (m s) as [[a|e|c] s1]; cbn [snd] in *; [|done..].
  eapply stable_trans; [exact Hm | apply Hk].
Qed.

Lemma preserves_try_catch (R : State -> State -> Prop) `{!Stable R}
    {A} (m : M A) (h : JsError -> M A) :
  preserves R m -> (forall e, preserves R (h e)) -> preserves R (try_catch m h).
Proof.
  intros Hm Hh s. specialize (Hm s). unfold try_catch.
  destruct (m s) as [[a|e|c] s1]; cbn [snd] in *; [done| |done].
  eapply stable_trans; [exact Hm | apply Hh].
Qed.

Ltac preserves_step :=
  first
    [ match goal with |- Stable _ => exact _ end
    | apply preserves_ret
    | apply preserves_throw
    | apply preserves_emit
    | apply preserves_exit
    | apply preserves_now
    | apply preserves_existsSync
    | apply preserves_readFileSync
    | apply preserves_bind; [..|intros]
    | apply preserves_try_catch; [..|intros]
    | match goal with
      | |- preserves _ (match ?x with _ => _ end) => destruct x
      | |- preserves _ (if ?x then _ else _) => destruct x
      end ].

Lemma preserves_getImageDescription w : preserves same_files (getImageDescription w).
Proof.
  unfold getImageDescription, getImageDataUrl, read_response, console_error. cbv zeta.
  repeat preserves_step.
Qed.

Lemma preserves_publish w imageDescription :
  preserves same_files (publish w imageDescription).
Proof.
  unfold publish, getImageDataUrl, convertDataURIToUint8Array, agent_login_call,
    agent_uploadBlob_call, agent_post_call, console_error. cbv zeta.
  repeat preserves_step.
Qed.

Lemma preserves_weaken {A} dest (m : M A) :
  preserves same_files m -> preserves (changed_only dest) m.
Proof. intros Hm s. apply same_files_changed_only, Hm. Qed.

Lemma preserves_write dest content :
  preserves (changed_only dest) (set_files (<[dest := content]>)).
Proof.
  intros s. unfold changed_only. cbn.
  split; [|split; [done | apply union_subseteq_r]].
  intros path Hpath. by rewrite lookup_insert_ne.
Qed.

Lemma preserves_delete dest :
  preserves (changed_only dest) (set_files (delete dest)).
Proof.
  intros s. unfold changed_only. cbn.
  split; [|split; [done | apply union_subseteq_r]].
  intros path Hpath. by rewrite lookup_delete_ne.
Qed.

Lemma preserves_downloadImage w url dest :
  preserves (changed_only dest) (downloadImage w url dest).
Proof.
  unfold downloadImage, saveImageToFile, unlink. cbv zeta.
  repeat first [ apply preserves_write | apply preserves_delete | preserves_step ].
Qed.

Lemma preserves_mkdir : preserves (changed_only imageDest) (mkdirSync todayFolder).
Proof.
  intros s. unfold changed_only. cbn.
  split; [done|]. split; [apply union_subseteq_r | done].
Qed.

Lemma preserves_getPostText w : preserves (changed_only imageDest) (getPostText w).
Proof.
  unfold getPostText, ensureTodayFolder, step1, step2, console_log, console_error.
  cbv zeta.
  repeat first
    [ apply preserves_mkdir
    | apply preserves_downloadImage
    | apply preserves_weaken, preserves_getImageDescription
    | apply preserves_weaken, preserves_publish
    | preserves_step ].
Qed.

(** X11.  Whatever the world does, a run changes no file other than
    [today/todays_image.jpg] and adds no directory other than [today];
    downloading changes no file other than its destination and no
    directory; asking for the description and publishing change no
    file and no directory at all (so a failed publication leaves the
    downloaded image in place). *)
Theorem run_changes_only_the_image w s :
  changed_only imageDest s (snd (main w s)) /\
  (forall url dest,
     (forall path, path <> dest ->
        files (snd (downloadImage w url dest s)) !! path = files s !! path) /\
     dirs (snd (downloadImage w url dest s)) = dirs s) /\
  same_files s (snd (getImageDescription w s)) /\
  (forall imageDescription, same_files s (snd (publish w imageDescription s))).
Proof.
  split; [|split; [|split]].
  - assert (Hmain : preserves (changed_only imageDest) (main w)).
    { unfold main, console_log, console_error.
      repeat first [ apply preserves_getPostText | preserves_step ]. }
    apply Hmain.
  - intros url dest. split.
    + apply (preserves_downloadImage w url dest s).
    + assert (Hdirs : preserves (fun s s' => dirs s' = dirs s) (downloadImage w url dest)).
      { assert (Stable (fun s s' => dirs s' = dirs s)).
        { split; try done. intros s1 s2 s3 H1 H2. by rewrite H2. }
        unfold downloadImage, saveImageToFile, unlink. cbv zeta.
        repeat first
          [ preserves_step
          | match goal with |- preserves _ (set_files _) => by intros ? end ]. }
      apply Hdirs.
  - apply preserves_getImageDescription.
  - intros imageDescription. apply preserves_publish.
Qed.

(** ** The calls to the posting service *)

Lemma publication_events_app e1 e2 :
  publication_events (e1 ++ e2) = publication_events e1 ++ publication_events e2.
Proof. apply List.filter_app. Qed.

Lemma publication_events_quiet events :
  forallb no_publication events = true -> publication_events events = [].
Proof.
  induction events as [|e events IH]; [done|]. cbn [forallb].
  intros [He Hrest]%andb_true_iff. unfold publication_events in *. cbn [List.filter].
  unfold no_publication in He. destruct (is_publication e); [done|]. by apply IH.
Qed.

Lemma posts_of_publication_events events :
  posts (publication_events events) = posts events.
Proof.
  induction events as [|e events IH]; [done|].
  unfold publication_events, posts in *. cbn [List.filter flat_map].
  destruct e; cbn [is_publication flat_map app]; by rewrite ?IH.
Qed.

Lemma publish_unreadable w imageDescription s :
  agent_login w (default [] (bskyHandle w)) (default [] (bskyPassword w)) = None ->
  files s !! imageDest = None \/ read_fails w (reads s) = true ->
  trace (snd (publish w imageDescription s))
  = trace s ++ [Login (default [] (bskyHandle w)) (default [] (bskyPassword w));
                ReadFile imageDest; ConsoleError (could_not_read imageDest);
                ProcessExit 1].
Proof.
  intros Hlogin Hbad. unfold publish.
  erewrite bind_returned by (unfold agent_login_call, bind, emit; by rewrite Hlogin).
  erewrite bind_exited by (by apply getImageDataUrl_unreadable).
  trace_solve.
Qed.

(** The posting-service calls of [publish], in order. *)
Lemma publish_publications w imageDescription s :
  exists events,
    trace (snd (publish w imageDescription s)) = trace s ++ events /\
    exists n data blob stamp,
      publication_events events
      = take n [Login (default [] (bskyHandle w)) (default [] (bskyPassword w));
                UploadBlob data (js "image/jpeg");
                CreatePost (post_record imageDescription blob stamp)].
Proof.
  destruct (agent_login w (default [] (bskyHandle w)) (default [] (bskyPassword w)))
    as [err|] eqn:Hlogin.
  { eexists. split.
    - unfold publish, agent_login_call, bind, emit. rewrite Hlogin. trace_solve.
    - by exists 1%nat, [], (Blob []), []. }
  destruct (files s !! imageDest) as [imageBuffer|] eqn:Hfile;
    [destruct (read_fails w (reads s)) eqn:Hread|].
  2:{ rewrite (publish_eq w _ s imageBuffer) by done. cbv zeta.
      destruct (agent_uploadBlob w imageBuffer _) as [err|blob].
      - eexists. split; [trace_solve|]. by exists 2%nat, imageBuffer, (Blob []), [].
      - destruct (agent_post w _);
          (eexists; split; [trace_solve|];
           by exists 3%nat, imageBuffer, blob, (Date.toISOString (clock w (ticks s)))). }
  all: eexists; split; [by apply publish_unreadable; auto|];
    by exists 1%nat, [], (Blob []), [].
Qed.

Lemma prepared_events s :
  exists events,
    trace (prepared s) = trace s ++ events /\ forallb no_publication events = true.
Proof.
  destruct (prepared_trace s) as [-> | ->]; [exists [] | exists [Mkdir todayFolder]];
    by rewrite ?app_nil_r.
Qed.

(** The posting-service calls of [getPostText], in order. *)
Lemma getPostText_publications w s :
  exists events,
    trace (snd (getPostText w s)) = trace s ++ events /\
    exists n data imageDescription blob stamp,
      imageDescription <> [] /\
      publication_events events
      = take n [Login (default [] (bskyHandle w)) (default [] (bskyPassword w));
                UploadBlob data (js "image/jpeg");
                CreatePost (post_record (truncate imageDescription) blob stamp)].
Proof.
  destruct (prepared_events s) as (ev0 & Ht0 & Hp0).
  assert (Hquiet : forall events,
            forallb no_publication events = true ->
            exists n data (imageDescription : list N) blob stamp,
              imageDescription <> [] /\
              publication_events events
              = take n [Login (default [] (bskyHandle w)) (default [] (bskyPassword w));
                        UploadBlob data (js "image/jpeg");
                        CreatePost (post_record (truncate imageDescription) blob stamp)]).
  { intros events Hev. exists 0%nat, [], [0], (Blob []), [].
    split; [done|]. by rewrite publication_events_quiet. }
  rewrite getPostText_eq.
  destruct (negb (truthy (bskyHandle w)) || negb (truthy (bskyPassword w))).
  { exists ev0. split; [exact Ht0 | by apply Hquiet]. }
  destruct (emits_only_step1 w (prepared s)) as (ev1 & Ht1 & Hp1).
  destruct (step1 w (prepared s)) as [[[[]|r1]|e1|c1] s1]; cbn [snd] in Ht1.
  2-4: exists (ev0 ++ ev1); (split; [cbn [snd]; by rewrite Ht1, Ht0, <- app_assoc|]);
    apply Hquiet; by rewrite forallb_app, Hp0, Hp1.
  destruct (emits_only_step2 w s1) as (ev2 & Ht2 & Hp2).
  destruct (step2 w s1) as [[[d|r2]|e2|c2] s2] eqn:Hstep2; cbn [snd] in Ht2.
  2-4: exists (ev0 ++ ev1 ++ ev2);
    (split; [cbn [snd]; by rewrite Ht2, Ht1, Ht0, <- !app_assoc|]);
    apply Hquiet; by rewrite !forallb_app, Hp0, Hp1, Hp2.
  destruct (publish_publications w (truncate d) s2) as (ev3 & Ht3 & n & data & blob & stamp & Hpub).
  exists (ev0 ++ ev1 ++ ev2 ++ ev3). split.
  - by rewrite Ht3, Ht2, Ht1, Ht0, <- !app_assoc.
  - exists n, data, d, blob, stamp. split.
    + rewrite step2_eq in Hstep2.
      destruct (getImageDescription w s1) as [[description|e|code] s1'] eqn:Hrun;
        [|done..].
      cbv zeta in Hstep2. injection Hstep2 as <- _.
      pose proof (getImageDescription_nonempty w s1 description s1' Hrun).
      by destruct description.
    + rewrite !publication_events_app.
      rewrite (publication_events_quiet ev0), (publication_events_quiet ev1),
        (publication_events_quiet ev2) by done.
      exact Hpub.
Qed.

(** [main] adds at most one console line to what [getPostText] did. *)
Lemma main_tail w s :
  exists tail,
    trace (snd (main w s)) = trace (snd (getPostText w s)) ++ tail /\
    forallb no_publication tail = true.
Proof.
  unfold main, try_catch, bind, now_iso, console_log, console_error, emit.
  destruct (getPostText w s) as [[text|e|code] s1].
  - eexists [_]. split; reflexivity.
  - eexists [_]. split; reflexivity.
  - exists []. by rewrite app_nil_r.
Qed.

Lemma main_publications w s :
  exists events,
    trace (snd (main w s)) = trace s ++ events /\
    exists n data imageDescription blob stamp,
      imageDescription <> [] /\
      publication_events events
      = take n [Login (default [] (bskyHandle w)) (default [] (bskyPassword w));
                UploadBlob data (js "image/jpeg");
                CreatePost (post_record (truncate imageDescription) blob stamp)].
Proof.
  destruct (getPostText_publications w s)
    as (events & Ht & n & data & d & blob & stamp & Hd & Hpub).
  destruct (main_tail w s) as (tail & Htail & Hquiet).
  exists (events ++ tail). split; [by rewrite Htail, Ht, <- app_assoc|].
  exists n, data, d, blob, stamp. split; [exact Hd|].
  by rewrite publication_events_app, (publication_events_quiet tail), app_nil_r.
Qed.

(** X12.  In every world the calls that a run makes to the posting
    service are an initial part of the sequence: one login with the
    identifier and the secret of the environment, one upload with media
    type [image/jpeg], one post.  So a run never posts twice, never
    posts without an upload before it, and never uploads without a
    login before it. *)
Theorem posting_calls_in_order w s :
  exists events,
    trace (snd (main w s)) = trace s ++ events /\
    exists n data record,
      publication_events events
      = take n [Login (default [] (bskyHandle w)) (default [] (bskyPassword w));
                UploadBlob data (js "image/jpeg");
                CreatePost record].
Proof.
  destruct (main_publications w s)
    as (events & Ht & n & data & d & blob & stamp & _ & Hpub).
  exists events. split; [exact Ht|]. by exists n, data, (post_record (truncate d) blob stamp).
Qed.

(** X13.  In every world a run creates no post or exactly one, and the
    post it creates has a text that is not empty and has at most 303
    code units, and embeds exactly one image, whose alt text is the
    text of the post and whose aspect ratio is 1000 by 500. *)
Theorem every_post_is_capped w s :
  posts (trace (snd (main w s))) = posts (trace s) \/
  exists record blob,
    posts (trace (snd (main w s))) = posts (trace s) ++ [record] /\
    text record <> [] /\
    (length (text record) <= 303)%nat /\
    embed_type (embed record) = js "app.bsky.embed.images" /\
    images (embed record)
    = [ {| alt := text record; image := blob;
           aspectRatio := {| width := 1000; height := 500 |} |} ].
Proof.
  destruct (main_publications w s)
    as (events & Ht & n & data & d & blob & stamp & Hd & Hpub).
  rewrite Ht, posts_app, <- (posts_of_publication_events events), Hpub.
  destruct n as [|[|[|n]]]; [left; cbn; by rewrite app_nil_r..|].
  right. exists (post_record (truncate d) blob stamp), blob.
  split; [cbn [firstn]; by rewrite take_nil|]. cbn [text embed embed_type images post_record].
  split; [|split; [apply truncate_length_le | done]].
  unfold truncate. destruct (Nat.ltb maxGraphemes (length d)).
  - intros Hnil. apply (f_equal length) in Hnil. rewrite length_app in Hnil.
    cbn in Hnil. lia.
  - exact Hd.
Qed.

(** ** Requests for the image *)

(** X14.  In every world [downloadImage] makes one GET or two, never
    more: the first to the given URL, and a second only to the Location
    of a 302 answer to the first.  The answer to the second request is
    never followed further. *)
Theorem at_most_one_redirect w url dest s :
  exists events,
    trace (snd (downloadImage w url dest s)) = trace s ++ events /\
    (gets events = [url] \/
     exists response location,
       https_get w url = Responded response /\
       statusCode response = 302 /\
       headers_location response = Some location /\
       location <> [] /\
       gets events = [url; location]).
Proof.
  rewrite downloadImage_eq. cbv zeta.
  destruct (https_get w url) as [response|err|err] eqn:Hget.
  2,3: eexists; (split; [trace_solve|]); by left.
  destruct (statusCode response =? 302) eqn:Hcode; cbn [andb].
  - destruct (headers_location response) as [[|c l]|] eqn:Hloc;
      cbn [truthy default from_option id].
    1,3: rewrite (proj1 (N.eqb_eq _ _) Hcode); cbn [N.eqb Pos.eqb];
      eexists; (split; [trace_solve|]); by left.
    apply N.eqb_eq in Hcode.
    destruct (https_get w (c :: l)) as [redirected|err|err].
    + destruct (saveImageToFile_gets w redirected dest
                  (record_event (HttpsGet (c :: l)) (record_event (HttpsGet url) s)))
        as (events & Ht & Hg).
      exists (HttpsGet url :: HttpsGet (c :: l) :: events). split.
      * rewrite Ht. trace_solve.
      * right. exists response, (c :: l). repeat split; try done.
        unfold gets in *. cbn [flat_map app]. by rewrite Hg.
    + eexists. split; [trace_solve|]. right. by exists response, (c :: l).
    + eexists. split; [trace_solve|]. right. by exists response, (c :: l).
  - destruct (statusCode response =? 200).
    + destruct (saveImageToFile_gets w response dest (record_event (HttpsGet url) s))
        as (events & Ht & Hg).
      exists (HttpsGet url :: events). split.
      * rewrite Ht. trace_solve.
      * left. unfold gets in *. cbn [flat_map app]. by rewrite Hg.
    + eexists. split; [trace_solve|]. by left.
Qed.

(** ** The image that is described and the image that is uploaded *)

(** X15.  The image sent to the inference service and the blob
    uploaded afterwards are the same bytes: when [step2] goes on with a
    description of the stored image [B], the request it made carried
    the data URI of [B] under the key of the environment, the file is
    still [B], and the upload that [publish] makes carries [B]. *)
Theorem described_image_is_uploaded w s1 s2 (B : list byte) imageDescription :
  truthy (token w) = true ->
  files s1 !! imageDest = Some B ->
  read_fails w (reads s1) = false ->
  step2 w s1 = (Returned (Continue imageDescription), s2) ->
  agent_login w (default [] (bskyHandle w)) (default [] (bskyPassword w)) = None ->
  read_fails w (reads s2) = false ->
  trace s2
  = trace s1
      ++ [ReadFile imageDest;
          ChatCompletions endpoint (default [] (token w))
            (chat_request (dataUrl (js "jpg") B));
          ConsoleLog (js "Image description received:  " ++ imageDescription)] /\
  files s2 !! imageDest = Some B /\
  uploads (trace (snd (publish w (truncate imageDescription) s2)))
  = uploads (trace s2) ++ [B].
Proof.
  intros Htoken Hfile Hread Hstep2 Hlogin Hread2.
  assert (Hfiles : files s2 !! imageDest = Some B).
  { assert (Hsame : same_files s1 (snd (step2 w s1))).
    { assert (Hp : preserves same_files (step2 w)).
      { unfold step2, console_log, console_error. cbv zeta.
        repeat first [ apply preserves_getImageDescription | preserves_step ]. }
      apply Hp. }
    rewrite Hstep2 in Hsame. destruct Hsame as [Hf _]. cbn [snd] in Hf. by rewrite Hf. }
  split; [|split; [exact Hfiles|]].
  - rewrite step2_eq, (getImageDescription_eq w s1 B) in Hstep2 by done.
    destruct (chat_completions w _) as [err|response]; [done|].
    unfold read_response in Hstep2.
    destruct (error_message response); [done|].
    destruct (body response) as [shown|[[|choice rest]|] body_error]; [done|done| |done].
    destruct (truthy (message_content choice)); cbv zeta in Hstep2;
      injection Hstep2 as <- <-; unfold asked; trace_solve.
  - rewrite (publish_eq w _ s2 B) by done. cbv zeta.
    destruct (agent_uploadBlob w B _) as [err|blob]; [|destruct (agent_post w _)];
      run_simpl; rewrite !uploads_app; cbn; by rewrite !app_nil_r.
Qed.

(** The stored snapshot ["X"]. *)
Lemma described_image_is_uploaded_witness :
  uploads (trace (snd (publish Scenario.sunny (truncate (js "A cat on a bridge."))
                         (snd (step2 Scenario.sunny Scenario.stored)))))
  = [Base64.bytes_of "X"].
Proof.
  apply (described_image_is_uploaded Scenario.sunny Scenario.stored
           (snd (step2 Scenario.sunny Scenario.stored)) (Base64.bytes_of "X")
           (js "A cat on a bridge.")); reflexivity.
Defined.
